(** * KB Agent (src/kb.ts): the chat command dispatcher and its Confluence client

    A shallow embedding of [normalizePrompt], [makeConfluenceRequest] and the
    chat request [handler] of src/kb.ts, with the properties of the
    specification stated over it.

    JavaScript strings are sequences of UTF-16 code units; they are modelled
    as [list N], a code unit being a number below 65536.  The module-level
    variable [confluenceAuth], the host's durable [globalState] slot, the
    network and the response stream are modelled by an explicit state with
    an event trace, threaded through a state-and-exception monad.  What the
    code calls but does not define ([JSON.parse], [fetch], the chat model)
    is a parameter, the class [Host]. *)

From Stdlib Require Import NArith ZArith Ascii String Decimal Lia.
From stdpp Require Import gmap list.

Local Open Scope N_scope.
Local Open Scope list_scope.

(** ** JavaScript strings *)

Abbreviation jsstring := (list N).

(** An ASCII literal as a JavaScript string. *)
Definition lit (s : string) : jsstring :=
  N_of_ascii <$> list_ascii_of_string s.

Arguments lit : simpl never.

(** The same, with every apostrophe of the literal standing for a double
    quote (code unit 34); used to write JSON texts. *)
Definition dq (s : string) : jsstring :=
  (fun c => if c =? 39 then 34 else c) <$> lit s.

(** White space and line terminators, the code units removed by
    [String.prototype.trim]. *)
Definition is_ws (c : N) : bool :=
  (c =? 0x9) || (c =? 0xA) || (c =? 0xB) || (c =? 0xC) || (c =? 0xD)
  || (c =? 0x20) || (c =? 0xA0) || (c =? 0x1680)
  || ((0x2000 <=? c) && (c <=? 0x200A))
  || (c =? 0x2028) || (c =? 0x2029) || (c =? 0x202F) || (c =? 0x205F)
  || (c =? 0x3000) || (c =? 0xFEFF).

Fixpoint dropWhile (p : N -> bool) (s : jsstring) : jsstring :=
  match s with
  | [] => []
  | c :: s' => if p c then dropWhile p s' else s
  end.

Fixpoint takeWhile (p : N -> bool) (s : jsstring) : jsstring :=
  match s with
  | [] => []
  | c :: s' => if p c then c :: takeWhile p s' else []
  end.

Definition trimStart (s : jsstring) : jsstring := dropWhile is_ws s.
Definition trimEnd (s : jsstring) : jsstring := rev (dropWhile is_ws (rev s)).

(** [s.trim()] *)
Definition trim (s : jsstring) : jsstring := trimEnd (trimStart s).

(** [s.startsWith(p)] *)
Fixpoint startsWith (s p : jsstring) {struct p} : bool :=
  match p with
  | [] => true
  | a :: p' =>
      match s with
      | [] => false
      | b :: s' => (a =? b) && startsWith s' p'
      end
  end.

(** [s.slice(n)] for [0 <= n]. *)
Definition slice_from (s : jsstring) (n : nat) : jsstring := drop n s.

(** [s.slice(0, n)] for [0 <= n]. *)
Definition slice_to (s : jsstring) (n : nat) : jsstring := take n s.

(** [s.indexOf(c)] for a one-unit string [c]; [None] stands for [-1]. *)
Fixpoint indexOf (s : jsstring) (c : N) : option nat :=
  match s with
  | [] => None
  | b :: s' => if b =? c then Some 0%nat else S <$> indexOf s' c
  end.

(** [s.replace(pat, rep)] for a string pattern: the first occurrence only. *)
Fixpoint replace_first (s pat rep : jsstring) : jsstring :=
  if startsWith s pat then rep ++ drop (length pat) s
  else match s with
       | [] => []
       | c :: s' => c :: replace_first s' pat rep
       end.

(** [s.split(c)] for a one-unit separator [c]. *)
Fixpoint split_on (c : N) (s : jsstring) : list jsstring :=
  match s with
  | [] => [[]]
  | b :: s' =>
      if b =? c then [] :: split_on c s'
      else match split_on c s' with
           | [] => [[b]]
           | w :: ws => (b :: w) :: ws
           end
  end.

(** [Boolean(s)] on a string: the empty string is falsy. *)
Definition nonempty (s : jsstring) : bool :=
  match s with [] => false | _ :: _ => true end.

(** [s.replace(/\/$/, '')]: one slash at the very end is removed. *)
Definition strip_trailing_slash (s : jsstring) : jsstring :=
  match rev s with
  | c :: r => if c =? 0x2F then rev r else s
  | [] => s
  end.

(** Decimal digits of a natural number, as [String(n)] prints an integer. *)
Fixpoint uint_units (u : Decimal.uint) : jsstring :=
  match u with
  | Nil => []
  | D0 u => 48 :: uint_units u
  | D1 u => 49 :: uint_units u
  | D2 u => 50 :: uint_units u
  | D3 u => 51 :: uint_units u
  | D4 u => 52 :: uint_units u
  | D5 u => 53 :: uint_units u
  | D6 u => 54 :: uint_units u
  | D7 u => 55 :: uint_units u
  | D8 u => 56 :: uint_units u
  | D9 u => 57 :: uint_units u
  end.

Definition N_decimal (n : N) : jsstring := uint_units (N.to_uint n).

(** [s.includes(p)] *)
Fixpoint includes (s p : jsstring) : bool :=
  startsWith s p ||
  match s with
  | [] => false
  | _ :: s' => includes s' p
  end.

(** ** The prompt normalizer *)

(** [t.match(/^\[([^\]]+)\]\([^\)]*\)$/)], returning capture group 1: an
    opening bracket, a non-empty run of units other than the closing
    bracket (greedy: it runs up to the first closing bracket), the two
    units "](", a run of units other than the closing parenthesis, one
    closing parenthesis, and the end of the input. *)
Definition link_match (t : jsstring) : option jsstring :=
  match t with
  | c :: t1 =>
      if c =? 0x5B then
        let label := takeWhile (fun u => negb (u =? 0x5D)) t1 in
        match label, dropWhile (fun u => negb (u =? 0x5D)) t1 with
        | _ :: _, _ :: lp :: t2 =>
            if lp =? 0x28 then
              match dropWhile (fun u => negb (u =? 0x29)) t2 with
              | [_] => Some label
              | _ => None
              end
            else None
        | _, _ => None
        end
      else None
  | [] => None
  end.

(** [normalizePrompt]; [None] is an [undefined] (or [null]) input. *)
Definition normalizePrompt (input : option jsstring) : jsstring :=
  let raw := default [] input in
  match link_match (trim raw) with
  | Some label => trim label
  | None => trim raw
  end.

(** ** Data *)

Record ConfluenceAuth := {
  token : jsstring;
  url : jsstring;
  email : jsstring
}.

(** [ConfluencePageContent].  The version number is a JavaScript number
    holding an integer; see [Number_add] for its arithmetic and
    [Number_toString] for its printing. *)
Record ConfluencePageContent := {
  id : jsstring;
  title : jsstring;
  version_number : Z;
  space_key : jsstring;
  space_name : option jsstring;
  body_storage_value : jsstring;
  links_webui : jsstring
}.

(** The object literal [payload] built by the /update branch. *)
Record UpdatePayload := {
  payload_id : jsstring;
  payload_type : jsstring;
  payload_title : jsstring;
  payload_space_key : jsstring;
  payload_body_value : jsstring;
  payload_body_representation : jsstring;
  payload_version_number : Z
}.

(** A thrown value: an [Error] object with its [message]. *)
Record exn := Error { message : jsstring }.

(** *** Numbers

    A JavaScript number is an IEEE 754 double.  On integers the sum is the
    exact sum rounded to the nearest double, ties to the even significand;
    below 2^53 in magnitude every integer is a double and nothing is
    rounded. *)
Definition round_to_double (x : Z) : Z :=
  let a := Z.abs x in
  if (a <? 2 ^ 53)%Z then x
  else
    let e := (Z.log2 a - 52)%Z in
    let q := (a / 2 ^ e)%Z in
    let r := (a mod 2 ^ e)%Z in
    let half := (2 ^ (e - 1))%Z in
    let q' := if (r <? half)%Z then q
              else if (half <? r)%Z then (q + 1)%Z
              else if Z.even q then q else (q + 1)%Z in
    (Z.sgn x * (q' * 2 ^ e))%Z.

Definition Number_add (a b : Z) : Z := round_to_double (a + b).

(** *** [String(n)] for a number that holds an integer

    JavaScript prints the digits of the decimal number with the fewest
    significant digits that still rounds to [n], the closest one where
    there are two; below 2^53 that number is [n] itself.  From 10^21 on the
    digits are printed in exponent form. *)

(** The number of decimal digits of a natural number. *)
Definition decimal_length (x : Z) : Z :=
  Z.of_nat (length (N_decimal (Z.to_N x))).

(** The search for the fewest significant digits [k] of an [n]-digit [x]:
    the two multiples of 10^(n-k) around [x] are the candidates. *)
Fixpoint shortest_from (fuel : nat) (k n x : Z) : Z :=
  match fuel with
  | O => x
  | S fuel' =>
      if (n <=? k)%Z then x
      else
        let p := (10 ^ (n - k))%Z in
        let lo := (x / p * p)%Z in
        let hi := (lo + p)%Z in
        let ok_lo := (round_to_double lo =? x)%Z in
        let ok_hi := (round_to_double hi =? x)%Z in
        if ok_lo && ok_hi then (if (x - lo <=? hi - x)%Z then lo else hi)
        else if ok_lo then lo
        else if ok_hi then hi
        else shortest_from fuel' (k + 1)%Z n x
  end.

(** Seventeen significant digits tell any two doubles apart. *)
Definition shortest_decimal (x : Z) : Z :=
  shortest_from 17 1 (decimal_length x) x.

Fixpoint strip_zeros (rev_digits : jsstring) : jsstring :=
  match rev_digits with
  | c :: r => if c =? 48 then strip_zeros r else rev_digits
  | [] => []
  end.

(** The digits of [v], a natural number of at least 22 digits, in exponent
    form: the first digit, the other significant digits after a point, and
    the exponent. *)
Definition exponent_form (v : Z) : jsstring :=
  let digits := N_decimal (Z.to_N v) in
  let significant := rev (strip_zeros (rev digits)) in
  let exponent := [0x65; 0x2B] ++ N_decimal (Z.to_N (decimal_length v - 1)) in
  match significant with
  | [] => digits
  | [d] => d :: exponent
  | d :: more => d :: 0x2E :: more ++ exponent
  end.

Definition Number_toString (n : Z) : jsstring :=
  let v := shortest_decimal (Z.abs n) in
  (if (n <? 0)%Z then [0x2D] else [])
  ++ (if (decimal_length v <=? 21)%Z then N_decimal (Z.to_N v)
      else exponent_form v).

(** *** JSON values, as [JSON.parse] returns them

    The type of numbers is left to the host: the handler only tests a
    parsed number for truthiness and converts it with [String]. *)
#[local] Set Warnings "-register-all".

Inductive json (number : Type) :=
| JNull
| JBool (b : bool)
| JNumber (n : number)
| JString (s : jsstring)
| JArray (l : list (json number))
| JObject (l : list (jsstring * json number)).

Arguments JNull {number}.
Arguments JBool {number} b.
Arguments JNumber {number} n.
Arguments JString {number} s.
Arguments JArray {number} l.
Arguments JObject {number} l.

(** *** Requests *)

Abbreviation HeadersObject := (gmap (list N) (list N)).

Inductive BodyInit :=
| BodyString (s : jsstring)
| BodyObject (p : UpdatePayload).

(** [RequestInit]: an absent property is [None]. *)
Record RequestInit := {
  init_method : option jsstring;
  init_headers : option HeadersObject;
  init_body : option BodyInit
}.

Definition no_options : RequestInit :=
  {| init_method := None; init_headers := None; init_body := None |}.

(** The body as handed to [fetch]: a string, or the text
    [JSON.stringify(p)] of a payload object [p], kept structured. *)
Inductive Body :=
| Text (s : jsstring)
| JsonText (p : UpdatePayload).

Record Request := {
  req_url : jsstring;
  req_method : option jsstring;
  req_headers : option HeadersObject;
  req_body : option Body
}.

(** A settled [fetch]: the response with the result of its [json()]
    method at the type the callers cast it to. *)
Record Response := {
  status : N;
  statusText : jsstring;
  json_result : exn + ConfluencePageContent
}.

(** [response.ok]: the status is in the range 200 to 299. *)
Definition ok (r : Response) : bool :=
  (200 <=? status r) && (status r <=? 299).

Inductive FetchOutcome :=
| Rejected (e : exn)
| Resolved (r : Response).

(** *** The chat host *)

Inductive ResponsePart :=
| ChatResponseMarkdownPart (value : jsstring)
| OtherPart.

Inductive Turn :=
| ChatRequestTurn (prompt : jsstring)
| ChatResponseTurn (response : list ResponsePart).

Inductive ChatMessage :=
| User (content : jsstring)
| Assistant (content : jsstring).

(** *** Observable events of one handler run *)
Inductive Event :=
| Fetch (r : Request)
| ReadJson
| GlobalStateUpdate (a : ConfluenceAuth)
| SendRequest (messages : list ChatMessage)
| Markdown (s : jsstring).

(** The module variable [confluenceAuth], the [globalState] entry under the
    key kbAgentAuth, and the events so far, oldest first. *)
Record State := {
  confluenceAuth : option ConfluenceAuth;
  kbAgentAuth : option ConfluenceAuth;
  trace : list Event
}.

(** The collaborators the code calls but does not define. *)
Class Host := {
  number : Type;
  number_truthy : number -> bool;
  number_String : number -> jsstring;
  JSON_parse : jsstring -> exn + json number;
  fetch : nat -> Request -> FetchOutcome;
  selectChatModels : option (list ChatMessage -> exn + list jsstring)
}.

(** ** The state-and-exception monad *)

Definition M (A : Type) : Type := State -> (exn + A) * State.

#[export] Instance M_ret : MRet M := fun A a s => (inr a, s).

#[export] Instance M_bind : MBind M := fun A B f m s =>
  match m s with
  | (inr a, s') => f a s'
  | (inl e, s') => (inl e, s')
  end.

#[export] Instance M_throw : MThrow exn M := fun A e s => (inl e, s).

(** [try { body } catch (err) { handler }] *)
Definition try_catch {A} (body : M A) (handler : exn -> M A) : M A :=
  fun s =>
    match body s with
    | (inr a, s') => (inr a, s')
    | (inl e, s') => handler e s'
    end.

Definition get_state : M State := fun s => (inr s, s).

(** The state with one more event at the end of its trace. *)
Definition log (s : State) (e : Event) : State :=
  {| confluenceAuth := confluenceAuth s;
     kbAgentAuth := kbAgentAuth s;
     trace := trace s ++ [e] |}.

Definition emit (e : Event) : M unit := fun s => (inr tt, log s e).

Definition set_confluenceAuth (a : option ConfluenceAuth) : M unit := fun s =>
  (inr tt, {| confluenceAuth := a;
              kbAgentAuth := kbAgentAuth s;
              trace := trace s |}).

(** [context.globalState.update('kbAgentAuth', auth)] *)
Definition globalState_update (a : ConfluenceAuth) : M unit := fun s =>
  (inr tt, {| confluenceAuth := confluenceAuth s;
              kbAgentAuth := Some a;
              trace := trace s ++ [GlobalStateUpdate a] |}).

(** An awaited promise or a call that may throw. *)
Definition settle {A} (r : exn + A) : M A :=
  match r with
  | inl e => mthrow e
  | inr a => mret a
  end.

(** [stream.markdown(s)] *)
Definition markdown (s : jsstring) : M unit := emit (Markdown s).

Definition is_Fetch (e : Event) : bool :=
  match e with Fetch _ => true | _ => false end.

Definition fetch_count (t : list Event) : nat := length (filter is_Fetch t).

(** ** Basic authentication: UTF-8 and base64 *)

(** [Buffer.from(s)]: the UTF-8 bytes of a string; a surrogate pair is one
    code point, a lone surrogate becomes U+FFFD. *)
Fixpoint utf8_encode (s : jsstring) : list N :=
  match s with
  | [] => []
  | u :: rest =>
      if u <? 0x80 then u :: utf8_encode rest
      else if u <? 0x800 then
        (0xC0 + u / 64) :: (0x80 + u mod 64) :: utf8_encode rest
      else if (0xD800 <=? u) && (u <? 0xDC00) then
        match rest with
        | lo :: rest' =>
            if (0xDC00 <=? lo) && (lo <? 0xE000) then
              let cp := 0x10000 + (u - 0xD800) * 0x400 + (lo - 0xDC00) in
              (0xF0 + cp / 0x40000) :: (0x80 + (cp / 0x1000) mod 64)
                :: (0x80 + (cp / 64) mod 64) :: (0x80 + cp mod 64)
                :: utf8_encode rest'
            else 0xEF :: 0xBF :: 0xBD :: utf8_encode rest
        | [] => [0xEF; 0xBF; 0xBD]
        end
      else if (0xDC00 <=? u) && (u <? 0xE000) then
        0xEF :: 0xBF :: 0xBD :: utf8_encode rest
      else
        (0xE0 + u / 0x1000) :: (0x80 + (u / 64) mod 64) :: (0x80 + u mod 64)
          :: utf8_encode rest
  end.

Definition base64_digit (i : N) : N :=
  if i <? 26 then 65 + i
  else if i <? 52 then 97 + (i - 26)
  else if i <? 62 then 48 + (i - 52)
  else if i =? 62 then 43 else 47.

(** [buffer.toString('base64')] *)
Fixpoint base64 (bytes : list N) : jsstring :=
  match bytes with
  | [] => []
  | [a] => [base64_digit (a / 4); base64_digit ((a mod 4) * 16); 61; 61]
  | [a; b] =>
      [base64_digit (a / 4); base64_digit ((a mod 4) * 16 + b / 16);
       base64_digit ((b mod 16) * 4); 61]
  | a :: b :: c :: rest =>
      base64_digit (a / 4) :: base64_digit ((a mod 4) * 16 + b / 16)
        :: base64_digit ((b mod 16) * 4 + c / 64) :: base64_digit (c mod 64)
        :: base64 rest
  end.

(** ** Messages of the handler *)

Definition cross_mark : jsstring := [0x274C].
Definition check_mark : jsstring := [0x2705].
Definition page_emoji : jsstring := [0xD83D; 0xDCC4].
Definition nl : jsstring := [0xA].

Definition prefix : jsstring := lit "@kb_agent ".

Definition msg_not_authenticated_client : jsstring :=
  lit "Not authenticated. Please run @kb_agent /auth first.".
Definition msg_no_model : jsstring := lit "No Copilot model available.".
Definition msg_missing_fields : jsstring :=
  cross_mark ++ lit " Missing fields: token, url, email.".
Definition msg_authenticated : jsstring :=
  check_mark ++
  lit " **Authenticated!** You can now use `/pages`, `/page`, `/update`, `/create`.".
Definition msg_auth_failed (msg : jsstring) : jsstring :=
  cross_mark ++ lit " Auth failed: " ++ msg.
Definition msg_invalid_json : jsstring :=
  cross_mark ++ lit " Invalid JSON for authentication.".
Definition msg_auth_required : jsstring :=
  cross_mark ++ lit " Not authenticated. Run `/auth` first.".
Definition msg_page_usage : jsstring :=
  cross_mark ++ lit " Usage: `/page <pageId>`".
Definition msg_fetch_failed (msg : jsstring) : jsstring :=
  cross_mark ++ lit " Failed to fetch page: " ++ msg.
Definition msg_update_usage : jsstring :=
  cross_mark ++ lit " Usage: `/update <pageId> <message to append>`".
Definition msg_missing_message : jsstring :=
  cross_mark ++ lit " Missing message to append.".
Definition msg_update_failed (msg : jsstring) : jsstring :=
  cross_mark ++ lit " Failed to update page: " ++ msg.
Definition msg_unknown_command : jsstring :=
  cross_mark ++
  lit " Unknown command. Use `/auth`, `/pages`, `/page <id>`, `/update <id> <text>`, or `/create`.".

Definition INSTRUCTIONS : jsstring :=
  lit "You are KB Agent, an AI assistant integrated into VS Code." ++ nl ++
  lit "Provide helpful, concise responses, and support special '@kb_agent /auth', '@kb_agent /pages', '@kb_agent /page', '@kb_agent /update', and '@kb_agent /create' commands for Confluence integration.".

(** [l.join(sep)] *)
Fixpoint join (sep : jsstring) (l : list jsstring) : jsstring :=
  match l with
  | [] => []
  | [x] => x
  | x :: l' => x ++ sep ++ join sep l'
  end.

(** ** The remote client *)

(** The object spread [{ headers: h, ...options }]: every property present
    in [options] replaces the one written before it. *)
Definition spread_over_headers (h : HeadersObject) (options : RequestInit)
  : RequestInit :=
  {| init_headers := match init_headers options with
                     | Some h' => Some h'
                     | None => Some h
                     end;
     init_method := init_method options;
     init_body := init_body options |}.

(** The inner object literal of [merged]: the three defaults, then the
    spread of [options.headers || {}]. *)
Definition default_headers (a : ConfluenceAuth) (options : RequestInit)
  : HeadersObject :=
  let authHeader := base64 (utf8_encode (email a ++ lit ":" ++ token a)) in
  default ∅ (init_headers options) ∪
  <[lit "Accept" := lit "application/json"]>
    (<[lit "Content-Type" := lit "application/json"]>
       (<[lit "Authorization" := lit "Basic " ++ authHeader]> ∅)).

(** [if (merged.body && typeof merged.body === 'object')
      merged.body = JSON.stringify(merged.body)] *)
Definition stringify_body (b : option BodyInit) : option Body :=
  match b with
  | Some (BodyObject p) => Some (JsonText p)
  | Some (BodyString s) => Some (Text s)
  | None => None
  end.

(** The URL and the [merged] options handed to [fetch] (lines 50 to 63). *)
Definition build_request (a : ConfluenceAuth) (endpoint : jsstring)
    (options : RequestInit) : Request :=
  let url := url a ++ lit "/wiki/rest/api" ++ endpoint in
  let merged := spread_over_headers (default_headers a options) options in
  {| req_url := url;
     req_method := init_method merged;
     req_headers := init_headers merged;
     req_body := stringify_body (init_body merged) |}.

(** The message of the error thrown for a response that is not ok. *)
Definition http_error (response : Response) : jsstring :=
  lit "HTTP " ++ N_decimal (status response) ++ lit ": " ++ statusText response.

Section Handler.

Context `{host : Host}.

(** [makeConfluenceRequest(endpoint, options)] *)
Definition makeConfluenceRequest (endpoint : jsstring) (options : RequestInit)
  : M ConfluencePageContent :=
  s ← get_state;
  match confluenceAuth s with
  | None => mthrow (Error msg_not_authenticated_client)
  | Some a =>
      let request := build_request a endpoint options in
      emit (Fetch request);;
      match fetch (fetch_count (trace s)) request with
      | Rejected e => mthrow e
      | Resolved response =>
          if negb (ok response) then
            mthrow (Error (http_error response))
          else
            emit ReadJson;;
            settle (json_result response)
      end
  end.

(** [saveAuth(auth)] *)
Definition saveAuth (auth : ConfluenceAuth) : M unit :=
  globalState_update auth;;
  set_confluenceAuth (Some auth).

(** *** Dynamic operations on the parsed /auth payload *)

(** The own property [k] of an object; a repeated key of the JSON text
    keeps its last value. *)
Fixpoint object_get (l : list (jsstring * json number)) (k : jsstring)
  : option (json number) :=
  match l with
  | [] => None
  | (k', v) :: l' =>
      match object_get l' k with
      | Some v' => Some v'
      | None => if decide (k' = k) then Some v else None
      end
  end.

(** [data.k]: reading a property of [null] throws a TypeError, a property
    no value has is [undefined] ([None]). *)
Definition get_property (data : json number) (k : jsstring)
  : exn + option (json number) :=
  match data with
  | JNull =>
      inl (Error (lit "Cannot read properties of null (reading '" ++ k ++ lit "')"))
  | JObject l => inr (object_get l k)
  | _ => inr None
  end.

(** [Boolean(v)] *)
Definition truthy (v : option (json number)) : bool :=
  match v with
  | None => false
  | Some JNull => false
  | Some (JBool b) => b
  | Some (JNumber n) => number_truthy n
  | Some (JString s) => nonempty s
  | Some (JArray _) => true
  | Some (JObject _) => true
  end.

Definition msg_not_primitive : jsstring :=
  lit "Cannot convert object to primitive value".

(** [String(v)].  An object is converted by its [toString] method: the
    inherited one gives "[object Object]", but an own property of that
    name, which is no function in a parsed value, hides it, and the
    conversion throws a TypeError.  An array joins the conversions of its
    elements, taken in order, [null] counting as the empty string. *)
Fixpoint to_String (v : json number) : exn + jsstring :=
  match v with
  | JNull => inr (lit "null")
  | JBool true => inr (lit "true")
  | JBool false => inr (lit "false")
  | JNumber n => inr (number_String n)
  | JString s => inr s
  | JArray l =>
      match
        (fix elements (l : list (json number)) : exn + list jsstring :=
           match l with
           | [] => inr []
           | x :: l' =>
               match match x with
                     | JNull => inr []
                     | _ => to_String x
                     end with
               | inl e => inl e
               | inr text =>
                   match elements l' with
                   | inl e => inl e
                   | inr texts => inr (text :: texts)
                   end
               end
           end) l
      with
      | inl e => inl e
      | inr texts => inr (join (lit ",") texts)
      end
  | JObject l =>
      match object_get l (lit "toString") with
      | Some _ => inl (Error msg_not_primitive)
      | None => inr (lit "[object Object]")
      end
  end.

Definition String_ (v : option (json number)) : exn + jsstring :=
  match v with
  | None => inr (lit "undefined")
  | Some x => to_String x
  end.

(** *** The conversational fallback (lines 80 to 99) *)

Definition markdown_values (response : list ResponsePart) : list jsstring :=
  omap (fun p => match p with
                 | ChatResponseMarkdownPart v => Some v
                 | OtherPart => None
                 end) response.

Fixpoint history_messages (history : list Turn) : list ChatMessage :=
  match history with
  | [] => []
  | ChatRequestTurn p :: h => User p :: history_messages h
  | ChatResponseTurn response :: h =>
      let text := join nl (markdown_values response) in
      if nonempty text then Assistant text :: history_messages h
      else history_messages h
  end.

Fixpoint stream_all (parts : list jsstring) : M unit :=
  match parts with
  | [] => mret tt
  | part :: parts' => markdown part;; stream_all parts'
  end.

Definition fallback (original : jsstring) (history : list Turn) : M unit :=
  match selectChatModels with
  | None => markdown msg_no_model
  | Some sendRequest =>
      let messages :=
        User INSTRUCTIONS :: history_messages history ++ [User original] in
      emit (SendRequest messages);;
      parts ← settle (sendRequest messages);
      stream_all parts
  end.

(** *** /auth (lines 104 to 124) *)

(** The inner [try] of the branch (lines 113 to 120): the probe, then the
    saving of the candidate. *)
Definition probe_and_save (auth : ConfluenceAuth) : M unit :=
  try_catch
    (makeConfluenceRequest (lit "/space") no_options;;
     saveAuth auth;;
     markdown msg_authenticated)
    (fun err => markdown (msg_auth_failed (message err))).

(** The candidate credential (lines 111 and 112): [String(data.url)]
    without its trailing slash, then [String(data.token)] and
    [String(data.email)]; the first conversion that throws ends it. *)
Definition make_auth (data_token data_url data_email : option (json number))
  : exn + ConfluenceAuth :=
  match String_ data_url with
  | inl e => inl e
  | inr url_text =>
      let url' := strip_trailing_slash url_text in
      match String_ data_token with
      | inl e => inl e
      | inr token_text =>
          match String_ data_email with
          | inl e => inl e
          | inr email_text =>
              inr {| token := token_text; url := url'; email := email_text |}
          end
      end
  end.

Definition auth_command (rest : jsstring) : M unit :=
  let jsonText := trim (replace_first rest (lit "/auth") []) in
  try_catch
    (data ← settle (JSON_parse jsonText);
     data_token ← settle (get_property data (lit "token"));
     data_url ← settle (get_property data (lit "url"));
     data_email ← settle (get_property data (lit "email"));
     if negb (truthy data_token) || negb (truthy data_url)
        || negb (truthy data_email)
     then markdown msg_missing_fields
     else
       auth ← settle (make_auth data_token data_url data_email);
       probe_and_save auth)
    (fun _ => markdown msg_invalid_json).

(** [confluenceAuth.url], read from the module variable once the request
    has settled. *)
Definition current_url : M jsstring :=
  s ← get_state;
  match confluenceAuth s with
  | Some a => mret (url a)
  | None => mthrow (Error (lit "Cannot read properties of null (reading 'url')"))
  end.

Definition expand_query : jsstring := lit "?expand=body.storage,version,space".

(** *** /page <pageId> (lines 160 to 178) *)

Definition page_output (page : ConfluencePageContent) (base : jsstring)
  : jsstring :=
  lit "### " ++ page_emoji ++ lit " Page: " ++ title page ++ nl
  ++ lit "- ID: " ++ id page ++ nl
  ++ lit "- Space: " ++ space_key page ++ nl
  ++ lit "- Version: " ++ Number_toString (version_number page) ++ nl
  ++ lit "- URL: " ++ base ++ lit "/wiki" ++ links_webui page ++ nl ++ nl
  ++ lit "**Content:**" ++ nl ++ nl ++ body_storage_value page.

(** The [try] of the branch (lines 164 to 177). *)
Definition show_page (pageId : jsstring) : M unit :=
  try_catch
    (page ← makeConfluenceRequest
              (lit "/content/" ++ pageId ++ expand_query) no_options;
     base ← current_url;
     markdown (page_output page base))
    (fun err => markdown (msg_fetch_failed (message err))).

Definition page_command (rest : jsstring) : M unit :=
  let parts := List.filter nonempty (split_on 0x20 rest) in
  match parts with
  | _ :: pageId :: _ => show_page pageId
  | _ => markdown msg_page_usage
  end.

(** *** /update <pageId> <text to append> (lines 181 to 212) *)

Definition update_payload (pageId messageToAppend : jsstring)
    (page : ConfluencePageContent) : UpdatePayload :=
  let newContent :=
    body_storage_value page ++ lit "<p>" ++ messageToAppend ++ lit "</p>" in
  {| payload_id := pageId;
     payload_type := lit "page";
     payload_title := title page;
     payload_space_key := space_key page;
     payload_body_value := newContent;
     payload_body_representation := lit "storage";
     payload_version_number := Number_add (version_number page) 1 |}.

Definition update_done (page : ConfluencePageContent) (base : jsstring)
  : jsstring :=
  check_mark ++ lit " Appended content to [" ++ title page ++ lit "]("
  ++ base ++ lit "/wiki" ++ links_webui page ++ lit ")".

(** The options of the write (line 207). *)
Definition put_options (payload : UpdatePayload) : RequestInit :=
  {| init_method := Some (lit "PUT");
     init_headers := None;
     init_body := Some (BodyObject payload) |}.

(** The [try] of the branch (lines 189 to 211): the read, then the write. *)
Definition append_to_page (pageId messageToAppend : jsstring) : M unit :=
  try_catch
    (page ← makeConfluenceRequest
              (lit "/content/" ++ pageId ++ expand_query) no_options;
     let payload := update_payload pageId messageToAppend page in
     makeConfluenceRequest (lit "/content/" ++ pageId) (put_options payload);;
     base ← current_url;
     markdown (update_done page base))
    (fun err => markdown (msg_update_failed (message err))).

Definition update_command (rest : jsstring) : M unit :=
  match indexOf rest 0x20 with
  | None => markdown msg_update_usage
  | Some firstSpace =>
      let afterCmd := trim (slice_from rest firstSpace) in
      match indexOf afterCmd 0x20 with
      | None => markdown msg_missing_message
      | Some secondSpace =>
          let pageId := trim (slice_to afterCmd secondSpace) in
          let messageToAppend := trim (slice_from afterCmd secondSpace) in
          append_to_page pageId messageToAppend
      end
  end.

(** *** The chat request handler (lines 69 to 240) *)

Definition reload_auth : M unit :=
  s ← get_state;
  match confluenceAuth s, kbAgentAuth s with
  | None, Some saved => set_confluenceAuth (Some saved)
  | _, _ => mret tt
  end.

(** The routing after the prefix has been removed (lines 101 to 239). *)
Definition dispatch (rest : jsstring) : M unit :=
  if startsWith rest (lit "/auth") then auth_command rest
  else
    s ← get_state;
    match confluenceAuth s with
    | None => markdown msg_auth_required
    | Some _ =>
        if startsWith rest (lit "/page") then page_command rest
        else if startsWith rest (lit "/update") then update_command rest
        else markdown msg_unknown_command
    end.

Definition handler (request_prompt : option jsstring) (history : list Turn)
  : M unit :=
  reload_auth;;
  let original := default [] request_prompt in
  let prompt := normalizePrompt (Some original) in
  let isCommand := startsWith prompt prefix in
  if negb isCommand then fallback original history
  else
    let rest := trim (slice_from prompt (length prefix)) in
    dispatch rest.

End Handler.

(** ** Specification-side definitions *)

(** The trimmed text [t] is exactly one markdown link: an opening bracket,
    the label, the two units "](", the target and a closing parenthesis,
    where the label is not empty and ends at the first closing bracket and
    the target ends at the first closing parenthesis. *)
Definition pure_link (t label target : jsstring) : Prop :=
  t = [0x5B] ++ label ++ [0x5D; 0x28] ++ target ++ [0x29]
  /\ label <> [] /\ (0x5D ∉ label) /\ (0x29 ∉ target).

(** The argument of [dispatch] for a command prompt, [None] for a prompt
    that goes to the conversational fallback. *)
Definition command_rest (request_prompt : option jsstring) : option jsstring :=
  let prompt := normalizePrompt (Some (default [] request_prompt)) in
  if startsWith prompt prefix
  then Some (trim (slice_from prompt (length prefix)))
  else None.

(** The credential in force during a handler run: the module variable, or
    else the saved one that [reload_auth] brings back. *)
Definition stored_credential (s : State) : option ConfluenceAuth :=
  match confluenceAuth s with
  | Some a => Some a
  | None => kbAgentAuth s
  end.

(** The state in which [dispatch] runs: [reload_auth] has brought the
    saved credential back into the module variable. *)
Definition reloaded (s : State) : State :=
  {| confluenceAuth := stored_credential s;
     kbAgentAuth := kbAgentAuth s;
     trace := trace s |}.

(** The page id and the text of an /update command, where it has both. *)
Definition update_args (rest : jsstring) : option (jsstring * jsstring) :=
  firstSpace ← indexOf rest 0x20;
  let afterCmd := trim (slice_from rest firstSpace) in
  secondSpace ← indexOf afterCmd 0x20;
  Some (trim (slice_to afterCmd secondSpace),
        trim (slice_from afterCmd secondSpace)).

(** The texts handed to [stream.markdown] during a run. *)
Definition responses (t : list Event) : list jsstring :=
  omap (fun e => match e with Markdown m => Some m | _ => None end) t.

(** The requests handed to [fetch] during a run. *)
Definition requests (t : list Event) : list Request :=
  omap (fun e => match e with Fetch r => Some r | _ => None end) t.

(** The credentials written to [globalState] during a run. *)
Definition persisted (t : list Event) : list ConfluenceAuth :=
  omap (fun e => match e with GlobalStateUpdate a => Some a | _ => None end) t.

(** *** Sample hosts

    JSON numbers are integers; [JSON.parse] is given by the table of the
    texts it is applied to, any other text being a syntax error; the
    network is a function of the request and of the number of requests
    made before it; no chat model is installed. *)
Fixpoint parse_table (table : list (jsstring * json Z)) (text : jsstring)
  : exn + json Z :=
  match table with
  | [] => inl (Error (lit "Unexpected token"))
  | (t, v) :: table' =>
      if decide (t = text) then inr v else parse_table table' text
  end.

Definition sample_host (table : list (jsstring * json Z))
    (network : nat -> Request -> FetchOutcome) : Host :=
  {| number := Z;
     number_truthy := fun n => negb (n =? 0)%Z;
     number_String := Number_toString;
     JSON_parse := parse_table table;
     fetch := network;
     selectChatModels := None |}.

Definition fresh_session : State :=
  {| confluenceAuth := None; kbAgentAuth := None; trace := [] |}.

Definition session_of (a : ConfluenceAuth) : State :=
  {| confluenceAuth := Some a; kbAgentAuth := Some a; trace := [] |}.

Definition offline : nat -> Request -> FetchOutcome :=
  fun _ _ => Rejected (Error (lit "fetch failed")).

(** A network that answers every request with 403 Forbidden. *)
Definition forbidden : nat -> Request -> FetchOutcome :=
  fun _ _ => Resolved {| status := 403; statusText := lit "Forbidden";
                         json_result := inl (Error (lit "Unexpected token")) |}.

Definition old_auth : ConfluenceAuth :=
  {| token := lit "old-token"; url := lit "http://old"; email := lit "old@x" |}.

Definition sample_page : ConfluencePageContent :=
  {| id := lit "123"; title := lit "Notes"; version_number := 3;
     space_key := lit "DOC"; space_name := None;
     body_storage_value := lit "<p>old</p>";
     links_webui := lit "/spaces/DOC/pages/123" |}.

(** A network that answers every request with 200 and the sample page. *)
Definition serving_sample_page : nat -> Request -> FetchOutcome :=
  fun _ _ => Resolved {| status := 200; statusText := lit "OK";
                         json_result := inr sample_page |}.

(** A network on which only the host of [old_auth] exists: a request to
    any other address is rejected. *)
Definition only_old_host : nat -> Request -> FetchOutcome :=
  fun _ request =>
    if startsWith (req_url request) (lit "http://old/")
    then Resolved {| status := 200; statusText := lit "OK";
                     json_result := inr sample_page |}
    else Rejected (Error (lit "fetch failed")).

(** The /auth payload of the specification's example. *)
Definition auth_text : jsstring :=
  dq "{'token':'t','url':'http://h/','email':'e@x'}".

Definition auth_json : json Z :=
  JObject [(lit "token", JString (lit "t"));
           (lit "url", JString (lit "http://h/"));
           (lit "email", JString (lit "e@x"))].

Definition auth_prompt : jsstring := lit "@kb_agent /auth " ++ auth_text.

Definition candidate : ConfluenceAuth :=
  {| token := lit "t"; url := lit "http://h"; email := lit "e@x" |}.

(** ** Activation and what a run may change *)

(** [activate] (lines 37 to 41): the module variable takes the saved
    credential, [null] where none is saved.  The log line and the
    registration of the chat participant leave the state alone. *)
Definition activate : M unit := fun s =>
  (inr tt, {| confluenceAuth := kbAgentAuth s;
              kbAgentAuth := kbAgentAuth s;
              trace := trace s |}).

(** A new extension host process: the module variable is [null] again,
    the saved state is kept. *)
Definition restarted (s : State) : State :=
  {| confluenceAuth := None; kbAgentAuth := kbAgentAuth s; trace := [] |}.

(** The module variable and the saved credential agree. *)
Definition in_sync (s : State) : Prop := confluenceAuth s = kbAgentAuth s.

(** The credentials of [s'] against those of [s], given the events [tail]
    between them: unchanged where nothing was saved, and otherwise both the
    credential saved last. *)
Definition creds_after (tail : list Event) (s s' : State) : Prop :=
  match last (persisted tail) with
  | None =>
      confluenceAuth s' = confluenceAuth s /\ kbAgentAuth s' = kbAgentAuth s
  | Some auth =>
      confluenceAuth s' = Some auth /\ kbAgentAuth s' = Some auth
  end.

(** A computation that only adds events to the trace, among them at most
    [n] requests and [k] writes of the saved credential, and that changes
    the credentials by such writes alone. *)
Definition frame (n k : nat) {A} (m : M A) : Prop :=
  forall s,
    exists tail,
      trace (m s).2 = trace s ++ tail
      /\ (length (requests tail) <= n)%nat
      /\ (length (persisted tail) <= k)%nat
      /\ creds_after tail s (m s).2.

(** What [makeConfluenceRequest] makes of a settled [fetch]: the error it
    throws or the body it returns. *)
Definition client_result (o : FetchOutcome) : exn + ConfluencePageContent :=
  match o with
  | Rejected e => inl e
  | Resolved r => if ok r then json_result r else inl (Error (http_error r))
  end.

(** The events that follow the request: the body is read only when the
    response is ok. *)
Definition after_fetch (o : FetchOutcome) : list Event :=
  match o with
  | Rejected _ => []
  | Resolved r => if ok r then [ReadJson] else []
  end.

(** A conversation: the handler runs on each turn in order. *)
Fixpoint turns `{host : Host} (l : list (option jsstring * list Turn))
    (s : State) : State :=
  match l with
  | [] => s
  | (p, h) :: l' => turns l' (handler p h s).2
  end.

(** An /auth payload whose url ends in two slashes. *)
Definition double_slash_text : jsstring :=
  dq "{'token':'t','url':'http://h//','email':'e@x'}".

Definition double_slash_json : json Z :=
  JObject [(lit "token", JString (lit "t"));
           (lit "url", JString (lit "http://h//"));
           (lit "email", JString (lit "e@x"))].

(** An /auth payload whose url is an object with a toString key. *)
Definition object_url_text : jsstring :=
  dq "{'token':'t','url':{'toString':1},'email':'e@x'}".

Definition object_url_json : json Z :=
  JObject [(lit "token", JString (lit "t"));
           (lit "url", JObject [(lit "toString", JNumber 1%Z)]);
           (lit "email", JString (lit "e@x"))].

(** An /auth payload whose token is the empty string. *)
Definition empty_token_text : jsstring :=
  dq "{'token':'','url':'http://h/','email':'e@x'}".

Definition empty_token_json : json Z :=
  JObject [(lit "token", JString []);
           (lit "url", JString (lit "http://h/"));
           (lit "email", JString (lit "e@x"))].

(** The units of a base64 text: letters, digits, plus, slash and the
    padding sign. *)
Definition is_base64_unit (c : N) : bool :=
  ((65 <=? c) && (c <=? 90)) || ((97 <=? c) && (c <=? 122))
  || ((48 <=? c) && (c <=? 57)) || (c =? 43) || (c =? 47) || (c =? 61).

(** The value of a base64 unit, and the reading of a base64 text: four
    units give three bytes, the padding sign ends the text. *)
Definition base64_value (c : N) : N :=
  if (65 <=? c) && (c <=? 90) then c - 65
  else if (97 <=? c) && (c <=? 122) then c - 71
  else if (48 <=? c) && (c <=? 57) then c + 4
  else if c =? 43 then 62 else 63.

Fixpoint base64_decode (s : jsstring) : list N :=
  match s with
  | c1 :: c2 :: c3 :: c4 :: rest =>
      let v1 := base64_value c1 in
      let v2 := base64_value c2 in
      let b1 := v1 * 4 + v2 / 16 in
      if c3 =? 61 then [b1]
      else
        let v3 := base64_value c3 in
        let b2 := (v2 mod 16) * 16 + v3 / 4 in
        if c4 =? 61 then [b1; b2]
        else
          let v4 := base64_value c4 in
          b1 :: b2 :: ((v3 mod 4) * 64 + v4) :: base64_decode rest
  | _ => []
  end.

(** The requests the handler makes: to an address under the API root of
    some credential, with the three default headers of that credential,
    and either without method and body or a PUT of a JSON payload. *)
Definition handler_request (r : Request) : Prop :=
  exists a endpoint,
    req_url r = url a ++ lit "/wiki/rest/api" ++ endpoint
    /\ req_headers r = Some (default_headers a no_options)
    /\ ((req_method r = None /\ req_body r = None)
        \/ (req_method r = Some (lit "PUT")
            /\ exists payload, req_body r = Some (JsonText payload))).

(** A computation all of whose requests satisfy [P]. *)
Definition sends (P : Request -> Prop) {A} (m : M A) : Prop :=
  forall s,
    exists tail,
      trace (m s).2 = trace s ++ tail /\ Forall P (requests tail).

(** A host with a chat model that answers every request by [reply]. *)
Definition chat_host (reply : exn + list jsstring) : Host :=
  {| number := Z;
     number_truthy := fun n => negb (n =? 0)%Z;
     number_String := Number_toString;
     JSON_parse := parse_table [];
     fetch := offline;
     selectChatModels := Some (fun _ => reply) |}.

(** A network that accepts the read and answers the write with 409. *)
Definition conflicting : nat -> Request -> FetchOutcome :=
  fun n _ =>
    match n with
    | O => Resolved {| status := 200; statusText := lit "OK";
                       json_result := inr sample_page |}
    | S _ => Resolved {| status := 409; statusText := lit "Conflict";
                         json_result := inl (Error (lit "Unexpected token")) |}
    end.

(** ** Basic authentication, checked on known encodings *)

Example base64_ascii :
  base64 (utf8_encode (lit "light w")) = lit "bGlnaHQgdw==".
Proof. reflexivity. Qed.

Example base64_non_ascii :
  base64 (utf8_encode [0xE9; 0x20AC; 0xD83D; 0xDE00]) = lit "w6nigqzwn5iA".
Proof. reflexivity. Qed.

(** ** Numbers as JavaScript prints them, checked on known values *)

Example Number_toString_known :
  Number_toString 7 = lit "7"
  /\ Number_toString (-12) = lit "-12"
  /\ Number_toString (2 ^ 53) = lit "9007199254740992"
  /\ Number_toString (2 ^ 60) = lit "1152921504606847000"
  /\ Number_toString (10 ^ 20) = lit "100000000000000000000"
  /\ Number_toString (10 ^ 21) = lit "1e+21"
  /\ Number_toString (2 ^ 70) = lit "1.1805916207174113e+21".
Proof. split_and!; vm_compute; reflexivity. Qed.

(** ** Facts about strings *)

Section StringFacts.

Implicit Types (s t : list N) (p : N -> bool).

Lemma takeWhile_dropWhile p s : takeWhile p s ++ dropWhile p s = s.
Proof.
  induction s as [|c s IH]; simpl; [done|].
  destruct (p c); simpl; [by rewrite IH | done].
Qed.

Lemma takeWhile_Forall p s : Forall (fun u => p u = true) (takeWhile p s).
Proof.
  induction s as [|c s IH]; simpl; [constructor|].
  destruct (p c) eqn:E; constructor; done.
Qed.

Lemma dropWhile_head p s c r : dropWhile p s = c :: r -> p c = false.
Proof.
  induction s as [|b s IH]; simpl; [done|].
  destruct (p b) eqn:E; [done|]. intros [= <- _]. done.
Qed.

Lemma takeWhile_app_stop p s c r :
  Forall (fun u => p u = true) s -> p c = false ->
  takeWhile p (s ++ c :: r) = s.
Proof.
  intros Hs Hc. induction Hs as [|b s Hb _ IH]; simpl.
  - by rewrite Hc.
  - by rewrite Hb, IH.
Qed.

Lemma dropWhile_app_stop p s c r :
  Forall (fun u => p u = true) s -> p c = false ->
  dropWhile p (s ++ c :: r) = c :: r.
Proof.
  intros Hs Hc. induction Hs as [|b s Hb _ IH]; simpl.
  - by rewrite Hc.
  - by rewrite Hb.
Qed.

Lemma dropWhile_all p s :
  Forall (fun u => p u = true) s -> dropWhile p s = [].
Proof. induction 1 as [|b s Hb _ IH]; simpl; [done | by rewrite Hb]. Qed.

Lemma dropWhile_idem p s : dropWhile p (dropWhile p s) = dropWhile p s.
Proof.
  induction s as [|c s IH]; simpl; [done|].
  destruct (p c) eqn:E; [done|]. simpl. by rewrite E.
Qed.

Lemma dropWhile_elem p s x : x ∈ dropWhile p s -> x ∈ s.
Proof.
  induction s as [|c s IH]; simpl; [done|].
  destruct (p c); [|done]. intros H. right. by apply IH.
Qed.

Lemma dropWhile_snoc_keep p s c :
  p c = false -> exists r, dropWhile p (s ++ [c]) = r ++ [c].
Proof.
  intros Hc. induction s as [|b s [r IH]]; simpl.
  - rewrite Hc. by exists [].
  - destruct (p b); [by exists r|]. by exists (b :: s).
Qed.

Lemma trimEnd_idem s : trimEnd (trimEnd s) = trimEnd s.
Proof. unfold trimEnd. by rewrite rev_involutive, dropWhile_idem. Qed.

Lemma trimStart_trimEnd s :
  trimStart s = s -> trimStart (trimEnd s) = trimEnd s.
Proof.
  destruct s as [|c s]; [done|]. unfold trimStart, trimEnd. simpl.
  destruct (is_ws c) eqn:E.
  - intros H. apply (f_equal length) in H. simpl in H.
    assert (length (dropWhile is_ws s) <= length s)%nat; [|lia].
    clear. induction s as [|b s IH]; simpl; [lia|].
    destruct (is_ws b); simpl; lia.
  - intros _. destruct (dropWhile_snoc_keep is_ws (rev s) c E) as [r ->].
    rewrite rev_app_distr. simpl. by rewrite E.
Qed.

Lemma trimStart_trim s : trimStart (trim s) = trim s.
Proof. apply trimStart_trimEnd, dropWhile_idem. Qed.

Lemma trimEnd_trim s : trimEnd (trim s) = trim s.
Proof. apply trimEnd_idem. Qed.

Lemma trim_idem s : trim (trim s) = trim s.
Proof. unfold trim at 1. by rewrite trimStart_trim, trimEnd_trim. Qed.

Lemma trim_elem s x : x ∈ trim s -> x ∈ s.
Proof.
  unfold trim, trimEnd, trimStart. intros H.
  apply list_elem_of_In, in_rev, list_elem_of_In, dropWhile_elem in H.
  apply list_elem_of_In, in_rev, list_elem_of_In in H.
  by apply dropWhile_elem in H.
Qed.

Lemma startsWith_app s (pre : list N) :
  startsWith s pre = true <-> exists r, s = pre ++ r.
Proof.
  revert s. induction pre as [|a pre IH]; intros s; simpl.
  - split; [by exists s | done].
  - destruct s as [|b s].
    + split; [done | by intros [r ?]].
    + rewrite andb_true_iff, N.eqb_eq, IH. split.
      * intros [-> [r ->]]. by exists r.
      * intros [r [= -> ->]]. eauto.
Qed.

End StringFacts.

(** ** The prompt normalizer *)

Lemma Forall_not_unit (c : N) (l : list N) :
  Forall (fun u => negb (u =? c) = true) l <-> c ∉ l.
Proof.
  rewrite Forall_forall. split.
  - intros H Hin. specialize (H c Hin). by rewrite N.eqb_refl in H.
  - intros H u Hu. apply negb_true_iff, N.eqb_neq. by intros ->.
Qed.

Lemma link_match_Some (t label : list N) :
  link_match t = Some label <-> exists target, pure_link t label target.
Proof.
  unfold pure_link. split.
  - destruct t as [|c t1]; [done|]. simpl.
    destruct (c =? 0x5B) eqn:Ec; [|done]. apply N.eqb_eq in Ec as ->.
    pose proof (takeWhile_dropWhile (fun u => negb (u =? 0x5D)) t1) as Hsplit.
    pose proof (takeWhile_Forall (fun u => negb (u =? 0x5D)) t1) as Hlab.
    destruct (takeWhile _ t1) as [|l0 lab] eqn:Etake; [done|].
    destruct (dropWhile _ t1) as [|rb [|lp t2]] eqn:Edrop; [done..|].
    destruct (lp =? 0x28) eqn:Elp; [|done]. apply N.eqb_eq in Elp as ->.
    pose proof (takeWhile_dropWhile (fun u => negb (u =? 0x29)) t2) as Hsplit2.
    pose proof (takeWhile_Forall (fun u => negb (u =? 0x29)) t2) as Htar.
    destruct (dropWhile _ t2) as [|rp [|? ?]] eqn:Edrop2; [done| |done].
    intros [= <-].
    apply dropWhile_head, negb_false_iff, N.eqb_eq in Edrop as ->.
    apply dropWhile_head, negb_false_iff, N.eqb_eq in Edrop2 as ->.
    exists (takeWhile (fun u => negb (u =? 0x29)) t2).
    split_and!; [|done|by apply Forall_not_unit|by apply Forall_not_unit].
    by rewrite <- Hsplit, <- Hsplit2 at 1.
  - intros (target & -> & Hne & Hlab & Htar).
    apply Forall_not_unit in Hlab, Htar. simpl.
    rewrite takeWhile_app_stop, dropWhile_app_stop by done.
    destruct label as [|l0 lab]; [done|]. simpl.
    change (target ++ [0x29]) with (target ++ 0x29 :: []).
    by rewrite dropWhile_app_stop.
Qed.

Lemma link_match_None (t : list N) :
  link_match t = None <-> forall label target, ~ pure_link t label target.
Proof.
  split.
  - intros H label target Hl.
    assert (link_match t = Some label) as Hs by (apply link_match_Some; eauto).
    congruence.
  - intros H. destruct (link_match t) as [label|] eqn:E; [|done].
    apply link_match_Some in E as [target Ht]. by destruct (H label target).
Qed.

Lemma link_match_bracket (t label : list N) :
  link_match t = Some label -> 0x5D ∈ t.
Proof.
  intros [target (-> & _)]%link_match_Some. set_solver.
Qed.

(** C4: for every input, undefined included, the normalizer returns the
    trimmed input, unless the trimmed input is exactly one markdown link
    spanning the whole string, in which case it returns the trimmed label;
    the four examples of the specification evaluate as stated. *)
Theorem normalizePrompt_spec :
  (forall input : option (list N),
     let t := trim (default [] input) in
     (exists label target,
        pure_link t label target /\ normalizePrompt input = trim label)
     \/ ((forall label target, ~ pure_link t label target)
         /\ normalizePrompt input = t))
  /\ normalizePrompt None = []
  /\ normalizePrompt (Some (lit "  [Foo Bar](http://x)  ")) = lit "Foo Bar"
  /\ normalizePrompt (Some (lit "plain text")) = lit "plain text"
  /\ normalizePrompt (Some []) = []
  /\ normalizePrompt (Some (lit "[a](b) extra")) = lit "[a](b) extra".
Proof.
  split; [|by vm_compute].
  intros input t. unfold normalizePrompt. fold t.
  destruct (link_match t) as [label|] eqn:E.
  - left. apply link_match_Some in E as [target Ht]. eauto.
  - right. split; [|done]. by apply link_match_None.
Qed.

(** C10: the normalizer is idempotent: its output is trimmed, and an
    unwrapped label holds no closing bracket, so it is no link again. *)
Theorem normalizePrompt_idempotent (input : option (list N)) :
  normalizePrompt (Some (normalizePrompt input)) = normalizePrompt input.
Proof.
  unfold normalizePrompt at 2.
  destruct (link_match (trim (default [] input))) as [label|] eqn:E.
  - unfold normalizePrompt. simpl. rewrite trim_idem, E.
    destruct (link_match (trim label)) as [l2|] eqn:E2; [|done].
    apply link_match_bracket, trim_elem in E2.
    apply link_match_Some in E as (target & _ & _ & Hlab & _).
    by destruct Hlab.
  - unfold normalizePrompt. simpl. by rewrite trim_idem, E.
Qed.

(** ** Running the handler *)

Section HandlerFacts.

Context `{host : Host}.

Implicit Types (s : State) (a : ConfluenceAuth) (rest endpoint : list N)
  (p : option (list N)) (h : list Turn) (r : Response).

Ltac run :=
  repeat progress
    (unfold mbind, M_bind, mret, M_ret, mthrow, M_throw, try_catch,
       get_state, markdown, emit, settle; cbn beta iota).

Ltac step H := rewrite H; run.

Lemma reload_auth_run s : reload_auth s = (inr tt, reloaded s).
Proof. destruct s as [[a|] [k|] t]; reflexivity. Qed.

Lemma handler_command p h rest s :
  command_rest p = Some rest -> handler p h s = dispatch rest (reloaded s).
Proof.
  unfold command_rest, handler. intros Hc.
  unfold mbind, M_bind. rewrite reload_auth_run.
  destruct (startsWith _ prefix); [|done]. by injection Hc as <-.
Qed.

(** *** The client *)

Lemma request_unauthenticated endpoint options s :
  confluenceAuth s = None ->
  makeConfluenceRequest endpoint options s
  = (inl (Error msg_not_authenticated_client), s).
Proof. intros Ha. unfold makeConfluenceRequest. run. by rewrite Ha. Qed.

Lemma request_rejected endpoint options s a e :
  confluenceAuth s = Some a ->
  fetch (fetch_count (trace s)) (build_request a endpoint options) = Rejected e ->
  makeConfluenceRequest endpoint options s
  = (inl e, log s (Fetch (build_request a endpoint options))).
Proof.
  intros Ha Hf. unfold makeConfluenceRequest. run. by rewrite Ha, Hf.
Qed.

Lemma request_not_ok endpoint options s a r :
  confluenceAuth s = Some a ->
  fetch (fetch_count (trace s)) (build_request a endpoint options) = Resolved r ->
  ok r = false ->
  makeConfluenceRequest endpoint options s
  = (inl (Error (http_error r)),
     log s (Fetch (build_request a endpoint options))).
Proof.
  intros Ha Hf Hok. unfold makeConfluenceRequest. run.
  by rewrite Ha, Hf, Hok.
Qed.

Lemma request_ok endpoint options s a r :
  confluenceAuth s = Some a ->
  fetch (fetch_count (trace s)) (build_request a endpoint options) = Resolved r ->
  ok r = true ->
  makeConfluenceRequest endpoint options s
  = (json_result r,
     log (log s (Fetch (build_request a endpoint options))) ReadJson).
Proof.
  intros Ha Hf Hok. unfold makeConfluenceRequest. run.
  rewrite Ha, Hf, Hok. simpl. by destruct (json_result r).
Qed.

(** Whatever the network answers, the client leaves the credentials alone
    and adds the request, and at most the reading of the body, to the
    trace. *)
Lemma request_trace endpoint options s a :
  confluenceAuth s = Some a ->
  exists res tail,
    makeConfluenceRequest endpoint options s
    = (res, {| confluenceAuth := confluenceAuth s;
               kbAgentAuth := kbAgentAuth s;
               trace := trace s
                        ++ Fetch (build_request a endpoint options) :: tail |})
    /\ (tail = [] \/ tail = [ReadJson]).
Proof.
  intros Ha.
  destruct (fetch (fetch_count (trace s)) (build_request a endpoint options))
    as [e|r] eqn:Hf.
  - rewrite (request_rejected _ _ _ _ _ Ha Hf). eauto.
  - destruct (ok r) eqn:Hok.
    + rewrite (request_ok _ _ _ _ _ Ha Hf Hok). eexists _, [ReadJson].
      split; [|by right]. unfold log. simpl. by rewrite <- app_assoc.
    + rewrite (request_not_ok _ _ _ _ _ Ha Hf Hok). eauto.
Qed.

Lemma requests_log_fetch s (req : Request) :
  requests (trace (log s (Fetch req))) = requests (trace s) ++ [req].
Proof. unfold requests. simpl. by rewrite omap_app. Qed.

Lemma fetch_count_log_fetch s (req : Request) :
  fetch_count (trace (log s (Fetch req))) = S (fetch_count (trace s)).
Proof.
  unfold fetch_count. simpl. rewrite filter_app, length_app. simpl. lia.
Qed.

Lemma fetch_count_log_other s (e : Event) :
  is_Fetch e = false ->
  fetch_count (trace (log s e)) = fetch_count (trace s).
Proof.
  intros He. unfold fetch_count. simpl. rewrite filter_app, length_app.
  rewrite filter_cons_False; [simpl; lia|]. rewrite He. intros [].
Qed.

(** *** Routing *)

Lemma dispatch_no_credential rest s :
  confluenceAuth s = None ->
  startsWith rest (lit "/auth") = false ->
  dispatch rest s = (inr tt, log s (Markdown msg_auth_required)).
Proof. intros Ha Hauth. unfold dispatch. run. by rewrite Hauth, Ha. Qed.

Lemma dispatch_unknown rest s a :
  confluenceAuth s = Some a ->
  startsWith rest (lit "/auth") = false ->
  startsWith rest (lit "/page") = false ->
  startsWith rest (lit "/update") = false ->
  dispatch rest s = (inr tt, log s (Markdown msg_unknown_command)).
Proof.
  intros Ha Hauth Hpage Hupd. unfold dispatch. run.
  by rewrite Hauth, Ha, Hpage, Hupd.
Qed.

Lemma requests_log_other s (e : Event) :
  is_Fetch e = false -> requests (trace (log s e)) = requests (trace s).
Proof.
  intros He. unfold requests. simpl. rewrite omap_app.
  destruct e; simpl; try done; by rewrite app_nil_r.
Qed.

(** *** /page *)

Lemma dispatch_page rest s a :
  confluenceAuth s = Some a ->
  startsWith rest (lit "/auth") = false ->
  startsWith rest (lit "/page") = true ->
  dispatch rest s = page_command rest s.
Proof.
  intros Ha Hauth Hpage. unfold dispatch. run. by rewrite Hauth, Ha, Hpage.
Qed.

Lemma page_command_usage rest s :
  (length (List.filter nonempty (split_on 0x20 rest)) < 2)%nat ->
  page_command rest s = (inr tt, log s (Markdown msg_page_usage)).
Proof.
  unfold page_command. destruct (List.filter _ _) as [|? [|? ?]]; simpl;
    [done | done | lia].
Qed.

Lemma page_command_failure rest s cmd pageId more e s1 :
  List.filter nonempty (split_on 0x20 rest) = cmd :: pageId :: more ->
  makeConfluenceRequest (lit "/content/" ++ pageId ++ expand_query)
    no_options s = (inl e, s1) ->
  page_command rest s
  = (inr tt, log s1 (Markdown (msg_fetch_failed (message e)))).
Proof.
  intros Hparts Hreq. unfold page_command. rewrite Hparts.
  unfold show_page. run. by rewrite Hreq.
Qed.

Lemma page_command_success rest s cmd pageId more page s1 a :
  List.filter nonempty (split_on 0x20 rest) = cmd :: pageId :: more ->
  makeConfluenceRequest (lit "/content/" ++ pageId ++ expand_query)
    no_options s = (inr page, s1) ->
  confluenceAuth s1 = Some a ->
  page_command rest s
  = (inr tt, log s1 (Markdown (page_output page (url a)))).
Proof.
  intros Hparts Hreq Ha. unfold page_command. rewrite Hparts.
  unfold show_page. run. rewrite Hreq. unfold current_url. run.
  by rewrite Ha.
Qed.

Lemma page_command_requests rest s cmd pageId more a :
  List.filter nonempty (split_on 0x20 rest) = cmd :: pageId :: more ->
  confluenceAuth s = Some a ->
  exists s',
    page_command rest s = (inr tt, s')
    /\ requests (trace s')
       = requests (trace s)
         ++ [build_request a (lit "/content/" ++ pageId ++ expand_query)
               no_options].
Proof.
  intros Hparts Ha.
  destruct (request_trace (lit "/content/" ++ pageId ++ expand_query)
              no_options s a Ha) as (res & tail & Hreq & Htail).
  assert (requests (trace s ++ Fetch (build_request a
            (lit "/content/" ++ pageId ++ expand_query) no_options) :: tail)
          = requests (trace s) ++ [build_request a
            (lit "/content/" ++ pageId ++ expand_query) no_options]) as Hr.
  { unfold requests. rewrite omap_app. by destruct Htail as [-> | ->]. }
  destruct res as [e|page].
  - rewrite (page_command_failure _ _ _ _ _ _ _ Hparts Hreq).
    eexists. split; [done|]. by rewrite requests_log_other.
  - rewrite (page_command_success _ _ _ _ _ _ _ a Hparts Hreq) by done.
    eexists. split; [done|]. by rewrite requests_log_other.
Qed.

(** *** No command raises an unhandled error *)

Lemma try_catch_markdown (body : M unit) (f : exn -> list N) s :
  exists s', try_catch body (fun e => markdown (f e)) s = (inr tt, s').
Proof.
  unfold try_catch. destruct (body s) as [[e|[]] s1]; [|by eauto].
  unfold markdown, emit. eauto.
Qed.

Lemma page_command_returns rest s :
  exists s', page_command rest s = (inr tt, s').
Proof.
  unfold page_command.
  destruct (List.filter _ _) as [|? [|pageId ?]];
    try (unfold markdown, emit; by eauto).
  apply try_catch_markdown.
Qed.

Lemma update_command_returns rest s :
  exists s', update_command rest s = (inr tt, s').
Proof.
  unfold update_command.
  destruct (indexOf rest _) as [i|]; [|unfold markdown, emit; by eauto].
  destruct (indexOf _ _) as [j|]; [|unfold markdown, emit; by eauto].
  apply try_catch_markdown.
Qed.

Lemma auth_command_returns rest s :
  exists s', auth_command rest s = (inr tt, s').
Proof. apply (try_catch_markdown _ (fun _ => msg_invalid_json)). Qed.

Lemma dispatch_returns rest s : exists s', dispatch rest s = (inr tt, s').
Proof.
  unfold dispatch. destruct (startsWith rest (lit "/auth"));
    [apply auth_command_returns|]. run.
  destruct (confluenceAuth s); [|by eauto].
  destruct (startsWith rest (lit "/page")); [apply page_command_returns|].
  destruct (startsWith rest (lit "/update")); [apply update_command_returns|].
  by eauto.
Qed.

Lemma includes_middle (x y z : list N) : includes (x ++ y ++ z) y = true.
Proof.
  induction x as [|c x IH]; simpl.
  - assert (startsWith (y ++ z) y = true) as Hs
      by (apply startsWith_app; eauto).
    destruct (y ++ z); simpl in *; by rewrite Hs.
  - rewrite IH. by rewrite orb_true_r.
Qed.

(** *** /update *)

Lemma startsWith_update rest :
  startsWith rest (lit "/update") = true ->
  startsWith rest (lit "/auth") = false
  /\ startsWith rest (lit "/page") = false.
Proof. intros [r ->]%startsWith_app. split; reflexivity. Qed.

Lemma dispatch_update rest s a :
  confluenceAuth s = Some a ->
  startsWith rest (lit "/update") = true ->
  dispatch rest s = update_command rest s.
Proof.
  intros Ha Hupd. destruct (startsWith_update _ Hupd) as [Hauth Hpage].
  unfold dispatch. run. by rewrite Hauth, Ha, Hpage, Hupd.
Qed.

Lemma update_command_args rest pageId text s :
  update_args rest = Some (pageId, text) ->
  update_command rest s = append_to_page pageId text s.
Proof.
  unfold update_args, update_command.
  destruct (indexOf rest _) as [i|]; simpl; [|done].
  destruct (indexOf _ _) as [j|]; simpl; [|done].
  by intros [= <- <-].
Qed.

Lemma append_to_page_requests pageId text s a r page :
  confluenceAuth s = Some a ->
  fetch (fetch_count (trace s))
    (build_request a (lit "/content/" ++ pageId ++ expand_query) no_options)
    = Resolved r ->
  ok r = true ->
  json_result r = inr page ->
  exists s',
    append_to_page pageId text s = (inr tt, s')
    /\ requests (trace s')
       = requests (trace s)
         ++ [build_request a (lit "/content/" ++ pageId ++ expand_query)
               no_options;
             build_request a (lit "/content/" ++ pageId)
               (put_options (update_payload pageId text page))].
Proof.
  intros Ha Hf Hok Hjson. unfold append_to_page. run.
  rewrite (request_ok _ _ _ _ _ Ha Hf Hok), Hjson.
  set (s1 := log (log s _) ReadJson).
  destruct (request_trace (lit "/content/" ++ pageId)
              (put_options (update_payload pageId text page)) s1 a Ha)
    as (res & tail & -> & Htail).
  assert (requests (trace s1 ++ Fetch (build_request a
            (lit "/content/" ++ pageId)
            (put_options (update_payload pageId text page))) :: tail)
          = requests (trace s)
            ++ [build_request a (lit "/content/" ++ pageId ++ expand_query)
                  no_options;
                build_request a (lit "/content/" ++ pageId)
                  (put_options (update_payload pageId text page))]) as Hr.
  { unfold requests, s1. simpl. rewrite !omap_app. simpl.
    rewrite <- !app_assoc. f_equal. by destruct Htail as [-> | ->]. }
  destruct res as [e|ack].
  - eexists. split; [done|]. by rewrite requests_log_other.
  - unfold current_url. run. simpl. rewrite Ha.
    eexists. split; [done|]. by rewrite requests_log_other.
Qed.

Lemma append_to_page_failure pageId text s e s1 :
  makeConfluenceRequest (lit "/content/" ++ pageId ++ expand_query)
    no_options s = (inl e, s1) ->
  append_to_page pageId text s
  = (inr tt, log s1 (Markdown (msg_update_failed (message e)))).
Proof. intros Hreq. unfold append_to_page. run. by rewrite Hreq. Qed.

Lemma append_to_page_success pageId text s a r page r2 ack :
  confluenceAuth s = Some a ->
  fetch (fetch_count (trace s))
    (build_request a (lit "/content/" ++ pageId ++ expand_query) no_options)
    = Resolved r ->
  ok r = true ->
  json_result r = inr page ->
  fetch (S (fetch_count (trace s)))
    (build_request a (lit "/content/" ++ pageId)
       (put_options (update_payload pageId text page))) = Resolved r2 ->
  ok r2 = true ->
  json_result r2 = inr ack ->
  append_to_page pageId text s
  = (inr tt,
     {| confluenceAuth := confluenceAuth s;
        kbAgentAuth := kbAgentAuth s;
        trace := trace s
                 ++ [Fetch (build_request a
                              (lit "/content/" ++ pageId ++ expand_query)
                              no_options);
                     ReadJson;
                     Fetch (build_request a (lit "/content/" ++ pageId)
                              (put_options (update_payload pageId text page)));
                     ReadJson;
                     Markdown (update_done page (url a))] |}).
Proof.
  intros Ha Hf Hok Hjson Hf2 Hok2 Hjson2. unfold append_to_page. run.
  rewrite (request_ok _ _ _ _ _ Ha Hf Hok), Hjson.
  set (s1 := log (log s _) ReadJson).
  assert (fetch_count (trace s1) = S (fetch_count (trace s))) as Hn.
  { unfold s1. rewrite fetch_count_log_other by done.
    apply fetch_count_log_fetch. }
  rewrite <- Hn in Hf2.
  rewrite (request_ok _ _ s1 a r2 Ha Hf2 Hok2), Hjson2.
  unfold current_url. run. unfold s1, log.
  cbn [confluenceAuth kbAgentAuth trace]. rewrite Ha.
  cbn [confluenceAuth kbAgentAuth trace]. rewrite <- !app_assoc.
  reflexivity.
Qed.

Lemma Number_add_exact (v : Z) :
  (Z.abs v < 2 ^ 53)%Z -> Number_add v 1 = (v + 1)%Z.
Proof.
  intros Hv. unfold Number_add, round_to_double.
  destruct (Z.abs (v + 1) <? 2 ^ 53)%Z eqn:E; [done|].
  apply Z.ltb_ge in E.
  change (2 ^ 53)%Z with 9007199254740992%Z in *.
  assert (v + 1 = 9007199254740992)%Z as -> by lia.
  by vm_compute.
Qed.

(** *** /auth *)

Lemma dispatch_auth rest s :
  startsWith rest (lit "/auth") = true ->
  dispatch rest s = auth_command rest s.
Proof. intros Hauth. unfold dispatch. by rewrite Hauth. Qed.

Lemma probe_and_save_unauthenticated auth s :
  confluenceAuth s = None ->
  probe_and_save auth s
  = (inr tt, log s (Markdown (msg_auth_failed msg_not_authenticated_client))).
Proof.
  intros Ha. unfold probe_and_save. run.
  by rewrite (request_unauthenticated _ _ _ Ha).
Qed.

Lemma probe_and_save_failure auth s e s1 :
  makeConfluenceRequest (lit "/space") no_options s = (inl e, s1) ->
  probe_and_save auth s
  = (inr tt, log s1 (Markdown (msg_auth_failed (message e)))).
Proof. intros Hreq. unfold probe_and_save. run. by rewrite Hreq. Qed.

Lemma probe_and_save_success auth s ack s1 :
  makeConfluenceRequest (lit "/space") no_options s = (inr ack, s1) ->
  probe_and_save auth s
  = (inr tt, {| confluenceAuth := Some auth;
                kbAgentAuth := Some auth;
                trace := trace s1
                         ++ [GlobalStateUpdate auth;
                             Markdown msg_authenticated] |}).
Proof.
  intros Hreq. unfold probe_and_save. run. rewrite Hreq.
  unfold saveAuth, globalState_update, set_confluenceAuth. run. simpl.
  unfold log. simpl. by rewrite <- app_assoc.
Qed.

Lemma auth_command_missing rest s data tok u em :
  JSON_parse (trim (replace_first rest (lit "/auth") [])) = inr data ->
  get_property data (lit "token") = inr tok ->
  get_property data (lit "url") = inr u ->
  get_property data (lit "email") = inr em ->
  truthy tok && truthy u && truthy em = false ->
  auth_command rest s = (inr tt, log s (Markdown msg_missing_fields)).
Proof.
  intros Hparse Htok Hu Hem Hfalsy. unfold auth_command. run.
  step Hparse. step Htok. step Hu. step Hem.
  replace (negb (truthy tok) || negb (truthy u) || negb (truthy em))
    with true; [done|].
  by destruct (truthy tok), (truthy u), (truthy em).
Qed.

Lemma auth_command_candidate rest s data tok u em :
  JSON_parse (trim (replace_first rest (lit "/auth") [])) = inr data ->
  get_property data (lit "token") = inr tok ->
  get_property data (lit "url") = inr u ->
  get_property data (lit "email") = inr em ->
  truthy tok && truthy u && truthy em = true ->
  auth_command rest s
  = match make_auth tok u em with
    | inl _ => (inr tt, log s (Markdown msg_invalid_json))
    | inr auth => probe_and_save auth s
    end.
Proof.
  intros Hparse Htok Hu Hem Htruthy. unfold auth_command. run.
  step Hparse. step Htok. step Hu. step Hem.
  apply andb_true_iff in Htruthy as [[-> ->]%andb_true_iff ->]. simpl.
  destruct (make_auth tok u em) as [e|auth]; run; [done|].
  destruct (try_catch_markdown
              (makeConfluenceRequest (lit "/space") no_options;;
               saveAuth auth;; markdown msg_authenticated)
              (fun err => msg_auth_failed (message err)) s) as [s' Hrun].
  fold (probe_and_save auth) in Hrun. by rewrite Hrun.
Qed.

Lemma persisted_log s (e : Event) :
  persisted (trace (log s e))
  = persisted (trace s)
    ++ match e with GlobalStateUpdate a => [a] | _ => [] end.
Proof.
  unfold persisted. simpl. rewrite omap_app. by destruct e.
Qed.

(** What a run of the probe leaves behind: either nothing is saved, or the
    candidate is saved after the request. *)
Lemma probe_and_save_outcome auth s :
  exists s',
    probe_and_save auth s = (inr tt, s')
    /\ ((persisted (trace s') = persisted (trace s)
         /\ kbAgentAuth s' = kbAgentAuth s
         /\ confluenceAuth s' = confluenceAuth s)
        \/ (persisted (trace s') = persisted (trace s) ++ [auth]
            /\ kbAgentAuth s' = Some auth
            /\ confluenceAuth s' = Some auth)).
Proof.
  destruct (confluenceAuth s) as [a|] eqn:Ha.
  - destruct (request_trace (lit "/space") no_options s a Ha)
      as (res & tail & Hreq & Htail).
    assert (persisted (trace s ++ Fetch (build_request a (lit "/space")
              no_options) :: tail) = persisted (trace s)) as Hp.
    { unfold persisted. rewrite omap_app.
      destruct Htail as [-> | ->]; simpl; by rewrite app_nil_r. }
    destruct res as [e|ack].
    + rewrite (probe_and_save_failure _ _ _ _ Hreq). eexists.
      split; [done|]. left. rewrite persisted_log. simpl.
      by rewrite app_nil_r, Hp, Ha.
    + rewrite (probe_and_save_success _ _ _ _ Hreq). eexists.
      split; [done|]. right. simpl. split; [|done].
      unfold persisted in *. rewrite omap_app. simpl. by rewrite Hp.
  - rewrite (probe_and_save_unauthenticated _ _ Ha). eexists.
    split; [done|]. left. rewrite persisted_log. simpl.
    by rewrite app_nil_r, Ha.
Qed.

Lemma strip_trailing_slash_slash (x : list N) :
  strip_trailing_slash (x ++ [0x2F]) = x.
Proof.
  unfold strip_trailing_slash. rewrite rev_app_distr. simpl.
  by rewrite rev_involutive.
Qed.

Lemma strip_trailing_slash_other (x : list N) :
  (forall y, x <> y ++ [0x2F]) -> strip_trailing_slash x = x.
Proof.
  intros Hx. unfold strip_trailing_slash.
  destruct (rev x) as [|c r] eqn:E; [done|].
  destruct (c =? 0x2F) eqn:Ec; [|done]. apply N.eqb_eq in Ec as ->.
  destruct (Hx (rev r)). rewrite <- (rev_involutive x), E. done.
Qed.

Lemma stored_credential_reloaded s :
  stored_credential (reloaded s) = stored_credential s.
Proof. unfold stored_credential, reloaded. by destruct s as [[?|] [?|] ?]. Qed.

Lemma stored_credential_log s (e : Event) :
  stored_credential (log s e) = stored_credential s.
Proof. reflexivity. Qed.

(** With no credential in force, /auth makes no request and saves
    nothing, whatever its payload: the client refuses to send the probe. *)
Lemma auth_without_credential rest s :
  confluenceAuth s = None ->
  exists m, auth_command rest s = (inr tt, log s (Markdown m)).
Proof.
  intros Ha. unfold auth_command. run.
  destruct (JSON_parse _) as [e|data]; run; [by eauto|].
  destruct (get_property data (lit "token")) as [e|tok]; run; [by eauto|].
  destruct (get_property data (lit "url")) as [e|u]; run; [by eauto|].
  destruct (get_property data (lit "email")) as [e|em]; run; [by eauto|].
  destruct (negb (truthy tok) || negb (truthy u) || negb (truthy em));
    [by eauto|].
  destruct (make_auth tok u em) as [e|auth]; run; [by eauto|].
  rewrite (probe_and_save_unauthenticated _ _ Ha). by eauto.
Qed.

Lemma first_auth_is_refused p h rest s :
  stored_credential s = None ->
  command_rest p = Some rest ->
  startsWith rest (lit "/auth") = true ->
  exists s',
    handler p h s = (inr tt, s')
    /\ requests (trace s') = requests (trace s)
    /\ persisted (trace s') = persisted (trace s)
    /\ stored_credential s' = None.
Proof.
  intros Hs Hc Hauth. rewrite (handler_command _ _ _ _ Hc).
  rewrite dispatch_auth by done.
  destruct (auth_without_credential rest (reloaded s)) as [m ->]; [done|].
  eexists. split; [done|]. split_and!.
  - by rewrite requests_log_other.
  - rewrite persisted_log. simpl. by rewrite app_nil_r.
  - by rewrite stored_credential_log, stored_credential_reloaded.
Qed.

(** *** The claims about the client and the dispatcher *)

(** C2 (amended): a command whose text starts with none of /auth, /page
    and /update is answered by the unknown-command message when a
    credential is stored, and by the authentication-required message when
    none is. *)
Theorem unknown_command_response p h rest s :
  command_rest p = Some rest ->
  startsWith rest (lit "/auth") = false ->
  startsWith rest (lit "/page") = false ->
  startsWith rest (lit "/update") = false ->
  exists s',
    handler p h s = (inr tt, s')
    /\ trace s' = trace s ++ [Markdown (match stored_credential s with
                                        | Some _ => msg_unknown_command
                                        | None => msg_auth_required
                                        end)].
Proof.
  intros Hc Hauth Hpage Hupd. rewrite (handler_command _ _ _ _ Hc).
  destruct (stored_credential s) as [a|] eqn:Hs.
  - rewrite (dispatch_unknown _ _ a) by done. eexists. split; done.
  - rewrite dispatch_no_credential by done. eexists. split; done.
Qed.

(** C3, evaluated: with a credential stored, /pages is taken by the /page
    branch, whose test is a prefix test: alone it is answered by the usage
    message of /page, and with an argument it fetches that page; /create
    is answered by the unknown-command message. *)
Theorem pages_is_routed_to_page a (k : option ConfluenceAuth)
    (t : list Event) h :
  let s := {| confluenceAuth := Some a; kbAgentAuth := k; trace := t |} in
  handler (Some (lit "@kb_agent /pages")) h s
    = (inr tt, log s (Markdown msg_page_usage))
  /\ msg_page_usage <> msg_unknown_command
  /\ (exists s',
        handler (Some (lit "@kb_agent /pages 42")) h s = (inr tt, s')
        /\ requests (trace s')
           = requests t
             ++ [build_request a
                   (lit "/content/42?expand=body.storage,version,space")
                   no_options])
  /\ handler (Some (lit "@kb_agent /create")) h s
     = (inr tt, log s (Markdown msg_unknown_command)).
Proof.
  intros s. split_and!.
  - rewrite (handler_command _ _ (lit "/pages")) by reflexivity.
    rewrite (dispatch_page _ _ a) by reflexivity.
    by apply page_command_usage; vm_compute; lia.
  - by vm_compute.
  - rewrite (handler_command _ _ (lit "/pages 42")) by reflexivity.
    rewrite (dispatch_page _ _ a) by reflexivity.
    destruct (page_command_requests (lit "/pages 42") (reloaded s)
                (lit "/pages") (lit "42") [] a) as (s' & Hrun & Hreq);
      [reflexivity..|].
    exists s'. split; [done|]. rewrite Hreq. reflexivity.
  - rewrite (handler_command _ _ (lit "/create")) by reflexivity.
    by rewrite (dispatch_unknown _ _ a) by reflexivity.
Qed.

(** C5: an /update whose read succeeds submits, as its second request, a
    PUT of the payload with the id of the command, the title and the space
    key of the page just read, the body just read followed by the text in
    a paragraph, and the version just read plus one. *)
Theorem update_writes_fetched_page_plus_one p h rest s a pageId text r page :
  stored_credential s = Some a ->
  command_rest p = Some rest ->
  startsWith rest (lit "/update") = true ->
  update_args rest = Some (pageId, text) ->
  let get := build_request a (lit "/content/" ++ pageId ++ expand_query)
               no_options in
  fetch (fetch_count (trace s)) get = Resolved r ->
  ok r = true ->
  json_result r = inr page ->
  let payload :=
    {| payload_id := pageId;
       payload_type := lit "page";
       payload_title := title page;
       payload_space_key := space_key page;
       payload_body_value :=
         body_storage_value page ++ lit "<p>" ++ text ++ lit "</p>";
       payload_body_representation := lit "storage";
       payload_version_number := Number_add (version_number page) 1 |} in
  let put := build_request a (lit "/content/" ++ pageId)
               (put_options payload) in
  (exists s',
     handler p h s = (inr tt, s')
     /\ requests (trace s') = requests (trace s) ++ [get; put])
  /\ (forall r2 ack,
        fetch (S (fetch_count (trace s))) put = Resolved r2 ->
        ok r2 = true ->
        json_result r2 = inr ack ->
        exists s',
          handler p h s = (inr tt, s')
          /\ trace s'
             = trace s ++ [Fetch get; ReadJson; Fetch put; ReadJson;
                           Markdown (update_done page (url a))])
  /\ req_method put = Some (lit "PUT")
  /\ req_body put = Some (JsonText payload)
  /\ ((Z.abs (version_number page) < 2 ^ 53)%Z ->
      payload_version_number payload = (version_number page + 1)%Z).
Proof.
  intros Hs Hc Hupd Hargs get Hf Hok Hjson payload put.
  rewrite (handler_command _ _ _ _ Hc).
  rewrite (dispatch_update _ _ a) by done.
  rewrite (update_command_args _ _ _ _ Hargs).
  split_and!.
  - by apply (append_to_page_requests pageId text (reloaded s) a r page).
  - intros r2 ack Hf2 Hok2 Hjson2.
    rewrite (append_to_page_success pageId text (reloaded s) a r page r2 ack)
      by done.
    eexists. split; done.
  - reflexivity.
  - reflexivity.
  - apply Number_add_exact.
Qed.

(** C6: a command other than /auth, with no credential in memory or in
    the saved state, is answered by the authentication-required message
    alone, and no request is made. *)
Theorem auth_required_without_credential p h rest s :
  stored_credential s = None ->
  command_rest p = Some rest ->
  startsWith rest (lit "/auth") = false ->
  exists s',
    handler p h s = (inr tt, s')
    /\ trace s' = trace s ++ [Markdown msg_auth_required]
    /\ requests (trace s') = requests (trace s)
    /\ stored_credential s' = None.
Proof.
  intros Hs Hc Hauth. rewrite (handler_command _ _ _ _ Hc).
  rewrite dispatch_no_credential by done.
  eexists. split; [done|]. split_and!.
  - done.
  - by rewrite requests_log_other.
  - unfold stored_credential at 1. simpl. rewrite Hs. revert Hs.
    unfold stored_credential. by destruct (confluenceAuth s).
Qed.

(** C7, evaluated: headers given by the caller are the only headers sent.
    The spread of [options] comes after the [headers] property of
    [merged] and replaces the merged object, so that no default survives,
    Authorization included; only a call without headers sends the three
    defaults. *)
Theorem caller_headers_replace_defaults a endpoint
    (hdrs : gmap (list N) (list N)) (m : option (list N))
    (b : option BodyInit) :
  req_headers (build_request a endpoint
                 {| init_method := m; init_headers := Some hdrs;
                    init_body := b |}) = Some hdrs
  /\ (let sent : gmap (list N) (list N) := {[ lit "X-Trace" := lit "1" ]} in
      let options := {| init_method := None; init_headers := Some sent;
                        init_body := None |} in
      req_headers (build_request old_auth (lit "/space") options) = Some sent
      /\ sent !! lit "Authorization" = None
      /\ sent !! lit "Content-Type" = None
      /\ sent !! lit "Accept" = None
      /\ default_headers old_auth options !! lit "Authorization"
         = Some (lit "Basic b2xkQHg6b2xkLXRva2Vu")
      /\ default_headers old_auth options !! lit "X-Trace" = Some (lit "1"))
  /\ (forall (k : option ConfluenceAuth) (t : list Event) options,
        exists res s',
          makeConfluenceRequest endpoint options
            {| confluenceAuth := Some a; kbAgentAuth := k; trace := t |}
          = (res, s')
          /\ requests (trace s')
             = requests t ++ [build_request a endpoint options])
  /\ req_headers (build_request a endpoint
                    {| init_method := m; init_headers := None;
                       init_body := b |})
     = Some {[ lit "Authorization"
                 := lit "Basic "
                    ++ base64 (utf8_encode (email a ++ lit ":" ++ token a));
               lit "Content-Type" := lit "application/json";
               lit "Accept" := lit "application/json" ]}.
Proof.
  split_and!.
  - reflexivity.
  - by vm_compute.
  - intros k t options.
    destruct (request_trace endpoint options
                {| confluenceAuth := Some a; kbAgentAuth := k; trace := t |}
                a eq_refl) as (res & tail & Hreq & Htail).
    eexists _, _. split; [exact Hreq|]. unfold requests. simpl.
    rewrite omap_app. by destruct Htail as [-> | ->].
  - reflexivity.
Qed.

Lemma make_auth_inr (tok u em : option (json number)) auth :
  make_auth tok u em = inr auth ->
  exists token_text url_text email_text,
    String_ tok = inr token_text /\ String_ u = inr url_text
    /\ String_ em = inr email_text
    /\ auth = {| token := token_text;
                 url := strip_trailing_slash url_text;
                 email := email_text |}.
Proof.
  unfold make_auth. destruct (String_ u) as [e|url_text]; [done|].
  destruct (String_ tok) as [e|token_text]; [done|].
  destruct (String_ em) as [e|email_text]; [done|].
  intros [= <-]. by eauto 10.
Qed.

Lemma make_auth_texts (tok u em : option (json number))
    (token_text url_text email_text : list N) :
  String_ tok = inr token_text -> String_ u = inr url_text ->
  String_ em = inr email_text ->
  make_auth tok u em = inr {| token := token_text;
                              url := strip_trailing_slash url_text;
                              email := email_text |}.
Proof. intros Ht Hu He. unfold make_auth. by rewrite Hu, Ht, He. Qed.

(** C9 (amended): for an /auth payload with the three keys, whatever the
    handler saves is the candidate made of the three values converted to
    strings, the url without one slash at its end if it has one; it is
    saved when the probe succeeds, and otherwise the saved state is left
    as it was.  Only one slash is removed. *)
Theorem auth_saves_stripped_url p h rest s data tok u em :
  command_rest p = Some rest ->
  startsWith rest (lit "/auth") = true ->
  JSON_parse (trim (replace_first rest (lit "/auth") [])) = inr data ->
  get_property data (lit "token") = inr (Some tok) ->
  get_property data (lit "url") = inr (Some u) ->
  get_property data (lit "email") = inr (Some em) ->
  (exists s',
     handler p h s = (inr tt, s')
     /\ ((persisted (trace s') = persisted (trace s)
          /\ kbAgentAuth s' = kbAgentAuth s
          /\ stored_credential s' = stored_credential s)
         \/ (exists token_text url_text email_text,
               to_String tok = inr token_text
               /\ to_String u = inr url_text
               /\ to_String em = inr email_text
               /\ let auth := {| token := token_text;
                                 url := strip_trailing_slash url_text;
                                 email := email_text |} in
                  persisted (trace s') = persisted (trace s) ++ [auth]
                  /\ kbAgentAuth s' = Some auth
                  /\ confluenceAuth s' = Some auth)))
  /\ (forall a r ack token_text url_text email_text,
        truthy (Some tok) && truthy (Some u) && truthy (Some em) = true ->
        to_String tok = inr token_text ->
        to_String u = inr url_text ->
        to_String em = inr email_text ->
        stored_credential s = Some a ->
        fetch (fetch_count (trace s))
          (build_request a (lit "/space") no_options) = Resolved r ->
        ok r = true ->
        json_result r = inr ack ->
        let auth := {| token := token_text;
                       url := strip_trailing_slash url_text;
                       email := email_text |} in
        exists s',
          handler p h s = (inr tt, s')
          /\ persisted (trace s') = persisted (trace s) ++ [auth]
          /\ kbAgentAuth s' = Some auth
          /\ confluenceAuth s' = Some auth)
  /\ (forall x, strip_trailing_slash (x ++ [0x2F]) = x)
  /\ (forall x, (forall y, x <> y ++ [0x2F]) -> strip_trailing_slash x = x).
Proof.
  intros Hc Hauth Hparse Htok Hu Hem.
  rewrite (handler_command _ _ _ _ Hc), dispatch_auth by done.
  split_and!.
  - destruct (truthy (Some tok) && truthy (Some u) && truthy (Some em))
      eqn:Htruthy.
    + rewrite (auth_command_candidate _ _ _ _ _ _ Hparse Htok Hu Hem Htruthy).
      destruct (make_auth (Some tok) (Some u) (Some em)) as [e|auth] eqn:Hm.
      * eexists. split; [done|]. left. rewrite persisted_log. simpl.
        rewrite app_nil_r. split_and!; [done | done |].
        by rewrite stored_credential_log, stored_credential_reloaded.
      * apply make_auth_inr in Hm
          as (token_text & url_text & email_text & Ht & Hut & Het & ->).
        destruct (probe_and_save_outcome
                    {| token := token_text;
                       url := strip_trailing_slash url_text;
                       email := email_text |} (reloaded s))
          as (s' & Hrun & Hout).
        exists s'. split; [exact Hrun|].
        destruct Hout as [(Hp & Hk & Hca) | Hsaved].
        -- left. split_and!; [done | done |].
           unfold stored_credential at 1. rewrite Hca, Hk. simpl.
           unfold stored_credential. by destruct s as [[?|] [?|] ?].
        -- right. exists token_text, url_text, email_text. by split_and!.
    + rewrite (auth_command_missing _ _ _ _ _ _ Hparse Htok Hu Hem Htruthy).
      eexists. split; [done|]. left. rewrite persisted_log. simpl.
      rewrite app_nil_r. split_and!; [done | done |].
      by rewrite stored_credential_log, stored_credential_reloaded.
  - intros a r ack token_text url_text email_text Htruthy Ht Hut Het Hs Hf
      Hok Hjson auth.
    rewrite (auth_command_candidate _ _ _ _ _ _ Hparse Htok Hu Hem Htruthy).
    rewrite (make_auth_texts (Some tok) (Some u) (Some em) _ _ _ Ht Hut Het).
    fold auth.
    assert (makeConfluenceRequest (lit "/space") no_options (reloaded s)
            = (inr ack, log (log (reloaded s)
                 (Fetch (build_request a (lit "/space") no_options)))
                 ReadJson)) as Hreq.
    { rewrite <- Hjson. by apply request_ok. }
    rewrite (probe_and_save_success _ _ _ _ Hreq).
    eexists. split; [done|]. simpl. split_and!; [|done|done].
    unfold persisted. by rewrite <- !app_assoc, !omap_app.
  - apply strip_trailing_slash_slash.
  - apply strip_trailing_slash_other.
Qed.

End HandlerFacts.

(** The witness of C5: the example of the specification, version 3 and
    body <p>old</p>, with the text "hello world". *)
Lemma update_writes_fetched_page_plus_one_witness :
  exists s',
    handler (host := sample_host [] serving_sample_page)
      (Some (lit "@kb_agent /update 123 hello world")) []
      (session_of old_auth) = (inr tt, s')
    /\ requests (trace s')
       = [build_request old_auth
            (lit "/content/123?expand=body.storage,version,space") no_options;
          {| req_url := lit "http://old/wiki/rest/api/content/123";
             req_method := Some (lit "PUT");
             req_headers := Some (default_headers old_auth no_options);
             req_body :=
               Some (JsonText
                       {| payload_id := lit "123";
                          payload_type := lit "page";
                          payload_title := lit "Notes";
                          payload_space_key := lit "DOC";
                          payload_body_value :=
                            lit "<p>old</p><p>hello world</p>";
                          payload_body_representation := lit "storage";
                          payload_version_number := 4 |}) |}].
Proof.
  destruct (update_writes_fetched_page_plus_one
              (host := sample_host [] serving_sample_page)
              (Some (lit "@kb_agent /update 123 hello world")) []
              (lit "/update 123 hello world") (session_of old_auth) old_auth
              (lit "123") (lit "hello world")
              {| status := 200; statusText := lit "OK";
                 json_result := inr sample_page |} sample_page
              eq_refl eq_refl eq_refl eq_refl eq_refl eq_refl eq_refl)
    as [(s' & Hrun & Hreq) _].
  exists s'. split; [exact Hrun|]. rewrite Hreq. reflexivity.
Defined.

(** The witness of C9 as amended: the payload of the specification's
    example, with a credential in force and a server that accepts the
    probe. *)
Lemma auth_saves_stripped_url_witness :
  exists s',
    handler (host := sample_host [(auth_text, auth_json)] serving_sample_page)
      (Some auth_prompt) [] (session_of old_auth) = (inr tt, s')
    /\ persisted (trace s')
       = [{| token := lit "t"; url := lit "http://h"; email := lit "e@x" |}]
    /\ kbAgentAuth s'
       = Some {| token := lit "t"; url := lit "http://h";
                 email := lit "e@x" |}.
Proof.
  destruct (auth_saves_stripped_url
              (host := sample_host [(auth_text, auth_json)] serving_sample_page)
              (Some auth_prompt) [] (lit "/auth " ++ auth_text)
              (session_of old_auth) auth_json
              (JString (lit "t")) (JString (lit "http://h/"))
              (JString (lit "e@x"))
              eq_refl eq_refl eq_refl eq_refl eq_refl eq_refl)
    as (_ & Hsaved & _).
  destruct (Hsaved old_auth
              {| status := 200; statusText := lit "OK";
                 json_result := inr sample_page |} sample_page
              (lit "t") (lit "http://h/") (lit "e@x")
              eq_refl eq_refl eq_refl eq_refl eq_refl eq_refl eq_refl eq_refl)
    as (s' & Hrun & Hp & Hk & _).
  exists s'. split; [exact Hrun|]. split; [exact Hp | exact Hk].
Defined.

(** C9 as stated fails: of the two slashes that end the url http://h//
    only one is removed, and the url that is saved still ends in a
    slash. *)
Lemma saved_url_keeps_a_second_slash :
  let s' := (handler
               (host := sample_host [(double_slash_text, double_slash_json)]
                          serving_sample_page)
               (Some (lit "@kb_agent /auth " ++ double_slash_text)) []
               (session_of old_auth)).2 in
  kbAgentAuth s'
  = Some {| token := lit "t"; url := lit "http://h/"; email := lit "e@x" |}
  /\ last (lit "http://h/") = Some 0x2F.
Proof. split; vm_compute; reflexivity. Qed.


(** C1, evaluated on the payload of the specification's example.  In a
    fresh session the client has no credential to send the probe with: no
    request is made and the candidate is refused.  With a credential in
    force the probe is sent to the address and with the Authorization of
    that credential, not of the candidate, and its success saves a
    candidate whose own address no request has reached. *)
Theorem auth_probe_uses_stored_credential :
  let host := sample_host [(auth_text, auth_json)] only_old_host in
  let probe := build_request old_auth (lit "/space") no_options in
  handler (host := host) (Some auth_prompt) [] fresh_session
    = (inr tt,
       {| confluenceAuth := None; kbAgentAuth := None;
          trace := [Markdown (msg_auth_failed msg_not_authenticated_client)] |})
  /\ handler (host := host) (Some auth_prompt) [] (session_of old_auth)
     = (inr tt,
        {| confluenceAuth := Some candidate; kbAgentAuth := Some candidate;
           trace := [Fetch probe; ReadJson; GlobalStateUpdate candidate;
                     Markdown msg_authenticated] |})
  /\ req_url probe = lit "http://old/wiki/rest/api/space"
  /\ req_headers probe = Some (default_headers old_auth no_options)
  /\ probe <> build_request candidate (lit "/space") no_options
  /\ only_old_host 0 (build_request candidate (lit "/space") no_options)
     = Rejected (Error (lit "fetch failed")).
Proof.
  intros host probe. split_and!.
  - vm_compute. reflexivity.
  - vm_compute. reflexivity.
  - vm_compute. reflexivity.
  - reflexivity.
  - intros H. apply (f_equal req_url) in H. vm_compute in H. discriminate H.
  - vm_compute. reflexivity.
Qed.

(** The witness of C6: /page 42 in a fresh session. *)
Lemma auth_required_without_credential_witness :
  exists s',
    handler (host := sample_host [] offline)
      (Some (lit "@kb_agent /page 42")) [] fresh_session = (inr tt, s')
    /\ trace s' = [Markdown msg_auth_required]
    /\ requests (trace s') = []
    /\ stored_credential s' = None.
Proof.
  apply (auth_required_without_credential (host := sample_host [] offline)
           (Some (lit "@kb_agent /page 42")) [] (lit "/page 42") fresh_session);
    reflexivity.
Defined.

(** The witness of C2 as amended: /foo with a stored credential. *)
Lemma unknown_command_response_witness :
  exists s',
    handler (host := sample_host [] offline)
      (Some (lit "@kb_agent /foo")) [] (session_of old_auth) = (inr tt, s')
    /\ trace s' = [Markdown msg_unknown_command].
Proof.
  apply (unknown_command_response (host := sample_host [] offline)
           (Some (lit "@kb_agent /foo")) [] (lit "/foo") (session_of old_auth));
    reflexivity.
Defined.

(** C2 as stated fails: in a fresh session /foo is answered by the
    authentication-required message, not by the unknown-command message
    it gets once a credential is stored. *)
Lemma unknown_command_depends_on_authentication :
  command_rest (Some (lit "@kb_agent /foo")) = Some (lit "/foo")
  /\ responses (trace (handler (host := sample_host [] offline)
                         (Some (lit "@kb_agent /foo")) [] fresh_session).2)
     = [msg_auth_required]
  /\ responses (trace (handler (host := sample_host [] offline)
                         (Some (lit "@kb_agent /foo")) []
                         (session_of old_auth)).2)
     = [msg_unknown_command]
  /\ msg_auth_required <> msg_unknown_command.
Proof. split_and!; [by vm_compute..|]. by vm_compute. Qed.

(** ** What every run keeps *)

Section Frames.

Context `{host : Host}.

Implicit Types (s : State) (a : ConfluenceAuth) (rest endpoint : list N)
  (p : option (list N)) (h : list Turn) (n k : nat).

Lemma requests_app (t1 t2 : list Event) :
  requests (t1 ++ t2) = requests t1 ++ requests t2.
Proof. apply omap_app. Qed.

Lemma persisted_app (t1 t2 : list Event) :
  persisted (t1 ++ t2) = persisted t1 ++ persisted t2.
Proof. apply omap_app. Qed.

Lemma creds_after_app (t1 t2 : list Event) s s1 s2 :
  creds_after t1 s s1 -> creds_after t2 s1 s2 -> creds_after (t1 ++ t2) s s2.
Proof.
  unfold creds_after. rewrite persisted_app, last_app.
  destruct (last (persisted t2)) as [auth|]; [done|].
  destruct (last (persisted t1)) as [auth|]; intros [H1 H2] [H3 H4];
    split; congruence.
Qed.

Lemma frame_weaken n k n' k' {A} (m : M A) :
  frame n k m -> (n <= n')%nat -> (k <= k')%nat -> frame n' k' m.
Proof.
  intros Hm Hn Hk s. destruct (Hm s) as (tail & Ht & Hr & Hp & Hc).
  exists tail. split_and!; [done | lia | lia | done].
Qed.

Lemma frame_ret {A} (x : A) : frame 0 0 (mret x : M A).
Proof. intros s. exists []. simpl. by rewrite app_nil_r. Qed.

Lemma frame_throw {A} (e : exn) : frame 0 0 (mthrow e : M A).
Proof. intros s. exists []. simpl. by rewrite app_nil_r. Qed.

Lemma frame_get_state : frame 0 0 get_state.
Proof. intros s. exists []. simpl. by rewrite app_nil_r. Qed.

Lemma frame_settle {A} (r : exn + A) : frame 0 0 (settle r).
Proof. destruct r; [apply frame_throw | apply frame_ret]. Qed.

Lemma frame_markdown (m : list N) : frame 0 0 (markdown m).
Proof. intros s. exists [Markdown m]. simpl. done. Qed.

Lemma frame_bind n1 k1 n2 k2 {A B} (m : M A) (f : A -> M B) :
  frame n1 k1 m -> (forall x, frame n2 k2 (f x)) ->
  frame (n1 + n2) (k1 + k2) (m ≫= f).
Proof.
  intros Hm Hf s. unfold mbind, M_bind.
  destruct (Hm s) as (t1 & Ht1 & Hr1 & Hp1 & Hc1).
  destruct (m s) as [[e|x] s1]; simpl in *.
  - exists t1. split_and!; [done | lia | lia | done].
  - destruct (Hf x s1) as (t2 & Ht2 & Hr2 & Hp2 & Hc2).
    exists (t1 ++ t2). rewrite Ht2, Ht1, requests_app, persisted_app,
      !length_app, <- app_assoc.
    split_and!; [done | lia | lia | by eapply creds_after_app].
Qed.

Lemma frame_try_catch n1 k1 n2 k2 {A} (body : M A) (handle : exn -> M A) :
  frame n1 k1 body -> (forall e, frame n2 k2 (handle e)) ->
  frame (n1 + n2) (k1 + k2) (try_catch body handle).
Proof.
  intros Hm Hf s. unfold try_catch.
  destruct (Hm s) as (t1 & Ht1 & Hr1 & Hp1 & Hc1).
  destruct (body s) as [[e|x] s1]; simpl in *.
  - destruct (Hf e s1) as (t2 & Ht2 & Hr2 & Hp2 & Hc2).
    exists (t1 ++ t2). rewrite Ht2, Ht1, requests_app, persisted_app,
      !length_app, <- app_assoc.
    split_and!; [done | lia | lia | by eapply creds_after_app].
  - exists t1. split_and!; [done | lia | lia | done].
Qed.

Lemma frame_client endpoint options :
  frame 1 0 (makeConfluenceRequest endpoint options).
Proof.
  intros s. destruct (confluenceAuth s) as [a|] eqn:Ha.
  - destruct (request_trace endpoint options s a Ha)
      as (res & tail & -> & Htail).
    eexists. split; [done|]. simpl.
    destruct Htail as [-> | ->]; split_and!; simpl; try lia; by rewrite Ha.
  - rewrite (request_unauthenticated _ _ _ Ha). exists []. simpl.
    rewrite app_nil_r. split_and!; [done | lia | lia | done].
Qed.

Lemma frame_saveAuth auth : frame 0 1 (saveAuth auth).
Proof. intros s. exists [GlobalStateUpdate auth]. simpl. done. Qed.

Lemma frame_current_url : frame 0 0 current_url.
Proof.
  intros s. exists []. unfold current_url, mbind, M_bind, get_state.
  destruct (confluenceAuth s); simpl; by rewrite app_nil_r.
Qed.

Lemma frame_probe_and_save auth : frame 1 1 (probe_and_save auth).
Proof.
  unfold probe_and_save.
  apply (frame_try_catch 1 1 0 0); [|intros e; apply frame_markdown].
  apply (frame_bind 1 0 0 1); [apply frame_client|]. intros _.
  apply (frame_bind 0 1 0 0); [apply frame_saveAuth|]. intros _.
  apply frame_markdown.
Qed.

Lemma frame_auth_command rest : frame 1 1 (auth_command rest).
Proof.
  unfold auth_command.
  apply (frame_try_catch 1 1 0 0); [|intros e; apply frame_markdown].
  apply (frame_bind 0 0 1 1); [apply frame_settle|]. intros data.
  apply (frame_bind 0 0 1 1); [apply frame_settle|]. intros tok.
  apply (frame_bind 0 0 1 1); [apply frame_settle|]. intros u.
  apply (frame_bind 0 0 1 1); [apply frame_settle|]. intros em.
  destruct (negb (truthy tok) || negb (truthy u) || negb (truthy em)).
  - eapply frame_weaken; [apply frame_markdown | lia | lia].
  - apply (frame_bind 0 0 1 1); [apply frame_settle|]. intros auth.
    apply frame_probe_and_save.
Qed.

Lemma frame_show_page (pageId : list N) : frame 1 0 (show_page pageId).
Proof.
  unfold show_page.
  apply (frame_try_catch 1 0 0 0); [|intros e; apply frame_markdown].
  apply (frame_bind 1 0 0 0); [apply frame_client|]. intros page.
  apply (frame_bind 0 0 0 0); [apply frame_current_url|]. intros base.
  apply frame_markdown.
Qed.

Lemma frame_page_command rest : frame 1 0 (page_command rest).
Proof.
  unfold page_command.
  destruct (List.filter _ _) as [|? [|pageId ?]];
    try (eapply frame_weaken; [apply frame_markdown | lia | lia]).
  apply frame_show_page.
Qed.

Lemma frame_append_to_page (pageId text : list N) :
  frame 2 0 (append_to_page pageId text).
Proof.
  unfold append_to_page.
  apply (frame_try_catch 2 0 0 0); [|intros e; apply frame_markdown].
  apply (frame_bind 1 0 1 0); [apply frame_client|]. intros page.
  apply (frame_bind 1 0 0 0); [apply frame_client|]. intros _.
  apply (frame_bind 0 0 0 0); [apply frame_current_url|]. intros base.
  apply frame_markdown.
Qed.

Lemma frame_update_command rest : frame 2 0 (update_command rest).
Proof.
  unfold update_command.
  destruct (indexOf rest _) as [i|];
    [|eapply frame_weaken; [apply frame_markdown | lia | lia]].
  destruct (indexOf _ _) as [j|];
    [|eapply frame_weaken; [apply frame_markdown | lia | lia]].
  apply frame_append_to_page.
Qed.

Lemma frame_stream_all (parts : list (list N)) : frame 0 0 (stream_all parts).
Proof.
  induction parts as [|part parts IH]; simpl; [apply frame_ret|].
  apply (frame_bind 0 0 0 0); [apply frame_markdown | by intros _].
Qed.

Lemma frame_fallback (original : list N) h : frame 0 0 (fallback original h).
Proof.
  unfold fallback. destruct selectChatModels as [send|];
    [|apply frame_markdown].
  apply (frame_bind 0 0 0 0).
  - intros s. eexists [SendRequest _]. simpl. done.
  - intros _. apply (frame_bind 0 0 0 0); [apply frame_settle|].
    intros parts. apply frame_stream_all.
Qed.

Lemma frame_dispatch rest : frame 2 1 (dispatch rest).
Proof.
  unfold dispatch. destruct (startsWith rest (lit "/auth")).
  { eapply frame_weaken; [apply frame_auth_command | lia | lia]. }
  apply (frame_bind 0 0 2 1); [apply frame_get_state|]. intros s0.
  destruct (confluenceAuth s0).
  - destruct (startsWith rest (lit "/page")).
    { eapply frame_weaken; [apply frame_page_command | lia | lia]. }
    destruct (startsWith rest (lit "/update")).
    { eapply frame_weaken; [apply frame_update_command | lia | lia]. }
    eapply frame_weaken; [apply frame_markdown | lia | lia].
  - eapply frame_weaken; [apply frame_markdown | lia | lia].
Qed.

End Frames.

(** ** More about strings and the normalizer *)

#[local] Set Warnings "-clear-no-such-hyp".

Section MoreStringFacts.

Implicit Types (s t : list N) (p : N -> bool).

Lemma dropWhile_nil_Forall p s :
  dropWhile p s = [] -> Forall (fun u => p u = true) s.
Proof.
  induction s as [|c s IH]; simpl; [constructor|].
  destruct (p c) eqn:E; [|done]. intros H. constructor; auto.
Qed.

Lemma dropWhile_length p s : (length (dropWhile p s) <= length s)%nat.
Proof.
  induction s as [|c s IH]; simpl; [lia|]. destruct (p c); simpl; lia.
Qed.

Lemma trimStart_suffix s : exists pre, s = pre ++ trimStart s.
Proof.
  exists (takeWhile is_ws s). symmetry. apply takeWhile_dropWhile.
Qed.

Lemma trimEnd_prefix s : exists post, s = trimEnd s ++ post.
Proof.
  unfold trimEnd. exists (rev (takeWhile is_ws (rev s))).
  rewrite <- rev_app_distr, takeWhile_dropWhile. by rewrite rev_involutive.
Qed.

Lemma trim_infix s : exists pre post, s = pre ++ trim s ++ post.
Proof.
  destruct (trimStart_suffix s) as [pre Hpre].
  destruct (trimEnd_prefix (trimStart s)) as [post Hpost].
  exists pre, post. unfold trim. by rewrite <- Hpost.
Qed.

Lemma trimEnd_snoc_ws s c : is_ws c = true -> trimEnd (s ++ [c]) <> s ++ [c].
Proof.
  intros Hc H. apply (f_equal length) in H. revert H.
  unfold trimEnd. rewrite length_rev, rev_app_distr. simpl. rewrite Hc.
  pose proof (dropWhile_length is_ws (rev s)) as Hl.
  rewrite length_rev in Hl. rewrite length_app. simpl. lia.
Qed.

Lemma trim_head_not_ws s c t : trim s = c :: t -> is_ws c = false.
Proof.
  intros H. pose proof (trimStart_trim s) as Hs. rewrite H in Hs.
  by apply dropWhile_head in Hs.
Qed.

Lemma trim_last_not_ws s c t : trim s = t ++ [c] -> is_ws c = false.
Proof.
  intros H. pose proof (trimEnd_trim s) as Hs. rewrite H in Hs.
  destruct (is_ws c) eqn:E; [|done]. by destruct (trimEnd_snoc_ws t c E).
Qed.

Lemma trim_nil_all_ws s :
  trim s = [] -> Forall (fun u => is_ws u = true) s.
Proof.
  unfold trim, trimEnd, trimStart. intros H.
  apply (f_equal (@rev N)) in H. rewrite rev_involutive in H. simpl in H.
  apply dropWhile_nil_Forall in H.
  assert (dropWhile is_ws s = []) as Hd.
  { destruct (dropWhile is_ws s) as [|c r] eqn:E; [done|].
    pose proof (dropWhile_head _ _ _ _ E) as Hc.
    rewrite Forall_forall in H. specialize (H c).
    rewrite H in Hc; [done|]. apply list_elem_of_In, in_rev.
    rewrite rev_involutive. by left. }
  by apply dropWhile_nil_Forall.
Qed.

Lemma trim_nonempty s c : c ∈ s -> is_ws c = false -> trim s <> [].
Proof.
  intros Hin Hc H. apply trim_nil_all_ws in H.
  rewrite Forall_forall in H. specialize (H c Hin). congruence.
Qed.

Lemma indexOf_Some s c j :
  indexOf s c = Some j ->
  exists post, s = take j s ++ c :: post /\ (c ∉ take j s)
               /\ drop j s = c :: post.
Proof.
  revert j. induction s as [|b s IH]; intros j; simpl; [done|].
  destruct (b =? c) eqn:E.
  - intros [= <-]. apply N.eqb_eq in E as ->. exists s. simpl.
    split_and!; [done | set_solver | done].
  - destruct (indexOf s c) as [i|] eqn:Hi; simpl; [|done].
    intros [= <-]. destruct (IH i eq_refl) as (post & Hs & Hnot & Hdrop).
    exists post. simpl. split_and!; [by rewrite <- Hs | | done].
    apply N.eqb_neq in E. set_solver.
Qed.

Lemma indexOf_None s c : indexOf s c = None <-> c ∉ s.
Proof.
  induction s as [|b s IH]; simpl; [set_solver|].
  destruct (b =? c) eqn:E.
  - apply N.eqb_eq in E as ->. split; [done | set_solver].
  - apply N.eqb_neq in E. destruct (indexOf s c); simpl.
    + split; [done|]. intros H. assert (c ∉ s) as Hs by set_solver.
      by apply IH in Hs.
    + split; [|done]. intros _. assert (c ∉ s) by (by apply IH).
      set_solver.
Qed.

Lemma split_on_no_separator (c : N) s : Forall (fun w => c ∉ w) (split_on c s).
Proof.
  induction s as [|b s IH]; simpl.
  - constructor; [set_solver | constructor].
  - destruct (b =? c) eqn:E.
    + constructor; [set_solver | done].
    + apply N.eqb_neq in E. destruct (split_on c s) as [|w ws].
      * constructor; [set_solver | constructor].
      * inversion IH; subst. constructor; [set_solver | done].
Qed.

Lemma split_on_absent (c : N) s : c ∉ s -> split_on c s = [s].
Proof.
  induction s as [|b s IH]; simpl; [done|]. intros H.
  destruct (b =? c) eqn:E.
  - apply N.eqb_eq in E as ->. set_solver.
  - rewrite IH; [done | set_solver].
Qed.

Lemma normalizePrompt_trimmed (input : option (list N)) :
  trim (normalizePrompt input) = normalizePrompt input.
Proof.
  unfold normalizePrompt. destruct (link_match _); apply trim_idem.
Qed.

(** X1: the normalizer never invents text: its result is a contiguous
    piece of the raw input, and it is trimmed. *)
Theorem normalizePrompt_is_trimmed_piece (input : option (list N)) :
  (exists pre post,
     default [] input = pre ++ normalizePrompt input ++ post)
  /\ trim (normalizePrompt input) = normalizePrompt input.
Proof.
  unfold normalizePrompt.
  destruct (trim_infix (default [] input)) as (pre & post & Hraw).
  destruct (link_match (trim (default [] input))) as [label|] eqn:E.
  - split; [|apply trim_idem].
    apply link_match_Some in E as (target & Ht & _).
    destruct (trim_infix label) as (pre' & post' & Hlab).
    exists (pre ++ [0x5B] ++ pre'),
      (post' ++ [0x5D; 0x28] ++ target ++ [0x29] ++ post).
    rewrite Hraw at 1. rewrite Ht. rewrite Hlab at 1.
    by rewrite <- !app_assoc.
  - split; [by eauto | apply trim_idem].
Qed.

(** X2: the tokens of a /page command hold no space and are not empty, so
    the page id put into the address is a non-empty run without spaces. *)
Theorem page_tokens_are_words (rest : list N) :
  Forall (fun w => w <> [] /\ (0x20 ∉ w))
    (List.filter nonempty (split_on 0x20 rest)).
Proof.
  apply Forall_forall. intros w Hw.
  apply list_elem_of_In, filter_In in Hw as [Hin Hne]. split.
  - by destruct w.
  - pose proof (split_on_no_separator 0x20 rest) as Hs.
    rewrite Forall_forall in Hs. apply Hs. by apply list_elem_of_In.
Qed.

(** X3: where /update has both arguments, the page id is a non-empty run
    without spaces and the text is not empty, and both are trimmed. *)
Theorem update_args_are_not_empty (rest pageId text : list N) :
  update_args rest = Some (pageId, text) ->
  pageId <> [] /\ (0x20 ∉ pageId) /\ trim pageId = pageId
  /\ text <> [] /\ trim text = text.
Proof.
  unfold update_args.
  destruct (indexOf rest 0x20) as [i|]; simpl; [|done].
  set (afterCmd := trim (slice_from rest i)).
  destruct (indexOf afterCmd 0x20) as [j|] eqn:Hj; simpl; [|done].
  intros [= <- <-].
  destruct (indexOf_Some _ _ _ Hj) as (post & Hsplit & Hnot & Hdrop).
  unfold slice_to, slice_from. rewrite Hdrop.
  split_and!; try apply trim_idem.
  - destruct (take j afterCmd) as [|c pre] eqn:Hpre.
    + simpl in Hsplit. by apply trim_head_not_ws in Hsplit.
    + apply (trim_nonempty _ c); [set_solver|].
      simpl in Hsplit. by apply trim_head_not_ws in Hsplit.
  - intros Hin. by apply trim_elem in Hin.
  - assert (is_Some (last (0x20 :: post))) as [c Hc]
      by (by apply last_is_Some).
    apply last_Some in Hc as [front Hfront].
    apply (trim_nonempty _ c); [rewrite Hfront; set_solver|].
    apply (trim_last_not_ws (slice_from rest i) c (take j afterCmd ++ front)).
    fold afterCmd. rewrite Hsplit at 1. by rewrite Hfront, app_assoc.
Qed.

End MoreStringFacts.

(** ** Every branch of the handler *)

Section Branches.

Context `{host : Host}.

Implicit Types (s : State) (a : ConfluenceAuth) (rest endpoint : list N)
  (p : option (list N)) (h : list Turn).

Ltac run :=
  repeat progress
    (unfold mbind, M_bind, mret, M_ret, mthrow, M_throw, try_catch,
       get_state, markdown, emit, settle; cbn beta iota).

Lemma request_outcome endpoint options s a :
  confluenceAuth s = Some a ->
  let request := build_request a endpoint options in
  let o := fetch (fetch_count (trace s)) request in
  makeConfluenceRequest endpoint options s
  = (client_result o,
     {| confluenceAuth := Some a;
        kbAgentAuth := kbAgentAuth s;
        trace := trace s ++ Fetch request :: after_fetch o |}).
Proof.
  intros Ha request o. unfold makeConfluenceRequest. run. rewrite Ha.
  fold request. fold o. unfold log. cbn [confluenceAuth kbAgentAuth trace].
  rewrite Ha. destruct o as [e|r]; simpl; [done|].
  destruct (ok r); simpl; [|done]. run.
  cbn [confluenceAuth kbAgentAuth trace]. rewrite <- app_assoc.
  by destruct (json_result r).
Qed.

Lemma startsWith_page rest :
  startsWith rest (lit "/page") = true ->
  startsWith rest (lit "/auth") = false.
Proof. intros [r ->]%startsWith_app. reflexivity. Qed.

(** X4: the client makes one request when a credential is in force and
    none otherwise, and it never changes the credentials. *)
Theorem client_sends_once_and_keeps_credentials endpoint
    (options : RequestInit) s :
  let s' := (makeConfluenceRequest endpoint options s).2 in
  confluenceAuth s' = confluenceAuth s
  /\ kbAgentAuth s' = kbAgentAuth s
  /\ requests (trace s')
     = requests (trace s)
       ++ match confluenceAuth s with
          | Some a => [build_request a endpoint options]
          | None => []
          end.
Proof.
  destruct (confluenceAuth s) as [a|] eqn:Ha.
  - rewrite (request_outcome _ _ _ _ Ha). simpl. split_and!; [done..|].
    unfold requests. rewrite omap_app. simpl. f_equal.
    destruct (fetch _ _) as [e|r]; simpl; [done|]. by destruct (ok r).
  - rewrite (request_unauthenticated _ _ _ Ha). simpl.
    by rewrite app_nil_r.
Qed.

(** X5: /page whose text holds no space has no page id (an id after a tab
    is none): it is answered by the usage message and no request is
    made. *)
Theorem page_without_id_is_usage_error p h rest s a :
  stored_credential s = Some a ->
  command_rest p = Some rest ->
  startsWith rest (lit "/page") = true ->
  0x20 ∉ rest ->
  handler p h s = (inr tt, log (reloaded s) (Markdown msg_page_usage)).
Proof.
  intros Hs Hc Hpage Hspace. rewrite (handler_command _ _ _ _ Hc).
  rewrite (dispatch_page _ _ a) by auto using startsWith_page.
  apply page_command_usage. rewrite split_on_absent by done.
  simpl. destruct (nonempty rest); simpl; lia.
Qed.

(** X6: /page with an id makes one GET, without method or body, for
    /content/<id> with the body, version and space expanded, at the address
    of the credential in force; it answers by the page summary, or by the
    failure message with the reason when the request is rejected, is not
    ok, or carries no JSON. *)
Theorem page_run p h rest s a cmd pageId more :
  stored_credential s = Some a ->
  command_rest p = Some rest ->
  startsWith rest (lit "/page") = true ->
  List.filter nonempty (split_on 0x20 rest) = cmd :: pageId :: more ->
  let get := build_request a (lit "/content/" ++ pageId ++ expand_query)
               no_options in
  let o := fetch (fetch_count (trace s)) get in
  handler p h s
  = (inr tt,
     {| confluenceAuth := Some a;
        kbAgentAuth := kbAgentAuth s;
        trace := trace s ++ Fetch get :: after_fetch o
                 ++ [Markdown
                       match client_result o with
                       | inl e => msg_fetch_failed (message e)
                       | inr page => page_output page (url a)
                       end] |})
  /\ req_url get
     = url a ++ lit "/wiki/rest/api/content/" ++ pageId
       ++ lit "?expand=body.storage,version,space"
  /\ req_method get = None
  /\ req_body get = None.
Proof.
  intros Hs Hc Hpage Hparts get o. split; [|split_and!].
  - rewrite (handler_command _ _ _ _ Hc).
    rewrite (dispatch_page _ _ a) by auto using startsWith_page.
    pose proof (request_outcome (lit "/content/" ++ pageId ++ expand_query)
                  no_options (reloaded s) a Hs) as Hreq.
    cbv zeta in Hreq. fold get in Hreq.
    change (trace (reloaded s)) with (trace s) in Hreq. fold o in Hreq.
    change (kbAgentAuth (reloaded s)) with (kbAgentAuth s) in Hreq.
    destruct (client_result o) as [e|page].
    + rewrite (page_command_failure _ _ _ _ _ _ _ Hparts Hreq).
      unfold log. cbn [confluenceAuth kbAgentAuth trace].
      by rewrite <- app_assoc.
    + rewrite (page_command_success _ _ _ _ _ _ _ a Hparts Hreq) by done.
      unfold log. cbn [confluenceAuth kbAgentAuth trace].
      by rewrite <- app_assoc.
  - reflexivity.
  - reflexivity.
  - reflexivity.
Qed.

Lemma fetch_count_after_fetch (t : list Event) (request : Request)
    (o : FetchOutcome) :
  fetch_count (t ++ Fetch request :: after_fetch o) = S (fetch_count t).
Proof.
  unfold fetch_count. rewrite filter_app, length_app.
  destruct o as [e|r]; simpl; [lia|]. destruct (ok r); simpl; lia.
Qed.

(** X7: /update without both arguments makes no request: without any
    space it is answered by the usage message, and with a page id but no
    text by the missing-message message. *)
Theorem update_without_arguments_is_usage_error p h rest s a :
  stored_credential s = Some a ->
  command_rest p = Some rest ->
  startsWith rest (lit "/update") = true ->
  update_args rest = None ->
  handler p h s
  = (inr tt,
     log (reloaded s)
       (Markdown match indexOf rest 0x20 with
                 | None => msg_update_usage
                 | Some _ => msg_missing_message
                 end)).
Proof.
  intros Hs Hc Hupd Hargs. rewrite (handler_command _ _ _ _ Hc).
  rewrite (dispatch_update _ _ a) by done.
  revert Hargs. unfold update_args, update_command.
  destruct (indexOf rest 0x20) as [i|]; simpl; [|done].
  by destruct (indexOf _ 0x20) as [j|].
Qed.

(** X8: /update with both arguments reads the page and, only if the read
    gave a page, writes it back once: a failed read is answered by the
    failure message after one request, a failed write by the failure
    message after two, and nothing is retried. *)
Theorem update_run p h rest s a pageId text :
  stored_credential s = Some a ->
  command_rest p = Some rest ->
  startsWith rest (lit "/update") = true ->
  update_args rest = Some (pageId, text) ->
  let n := fetch_count (trace s) in
  let get := build_request a (lit "/content/" ++ pageId ++ expand_query)
               no_options in
  let o1 := fetch n get in
  handler p h s
  = (inr tt,
     {| confluenceAuth := Some a;
        kbAgentAuth := kbAgentAuth s;
        trace :=
          trace s ++ Fetch get :: after_fetch o1
          ++ match client_result o1 with
             | inl e => [Markdown (msg_update_failed (message e))]
             | inr page =>
                 let put := build_request a (lit "/content/" ++ pageId)
                              (put_options (update_payload pageId text page)) in
                 let o2 := fetch (S n) put in
                 Fetch put :: after_fetch o2
                 ++ [Markdown match client_result o2 with
                              | inl e => msg_update_failed (message e)
                              | inr _ => update_done page (url a)
                              end]
             end |}).
Proof.
  intros Hs Hc Hupd Hargs n get o1. rewrite (handler_command _ _ _ _ Hc).
  rewrite (dispatch_update _ _ a) by done.
  rewrite (update_command_args _ _ _ _ Hargs).
  unfold append_to_page. run.
  rewrite (request_outcome _ _ (reloaded s) a Hs). cbv zeta.
  change (trace (reloaded s)) with (trace s).
  change (kbAgentAuth (reloaded s)) with (kbAgentAuth s).
  fold n get o1. destruct (client_result o1) as [e|page].
  - unfold log. cbn [confluenceAuth kbAgentAuth trace].
    by rewrite <- app_assoc.
  - set (s1 := {| confluenceAuth := Some a; kbAgentAuth := kbAgentAuth s;
                  trace := trace s ++ Fetch get :: after_fetch o1 |}).
    rewrite (request_outcome _ _ s1 a eq_refl). cbv zeta.
    unfold s1. cbn [confluenceAuth kbAgentAuth trace].
    rewrite fetch_count_after_fetch. fold n.
    set (put := build_request a (lit "/content/" ++ pageId)
                  (put_options (update_payload pageId text page))).
    destruct (client_result (fetch (S n) put)) as [e|ack].
    + unfold log. cbn [confluenceAuth kbAgentAuth trace].
      rewrite <- !app_assoc. simpl. by rewrite <- ?app_assoc.
    + unfold current_url. run. cbn [confluenceAuth kbAgentAuth trace].
      unfold log. cbn [confluenceAuth kbAgentAuth trace].
      rewrite <- !app_assoc. simpl. by rewrite <- ?app_assoc.
Qed.

(** X9: an /auth payload that [JSON.parse] rejects, or that is the JSON
    value null, is answered by the invalid-JSON message; no request is
    made and nothing is saved. *)
Theorem auth_invalid_json p h rest s :
  command_rest p = Some rest ->
  startsWith rest (lit "/auth") = true ->
  (exists e, JSON_parse (trim (replace_first rest (lit "/auth") [])) = inl e)
  \/ JSON_parse (trim (replace_first rest (lit "/auth") [])) = inr JNull ->
  handler p h s = (inr tt, log (reloaded s) (Markdown msg_invalid_json)).
Proof.
  intros Hc Hauth Hparse. rewrite (handler_command _ _ _ _ Hc).
  rewrite dispatch_auth by done. unfold auth_command. run.
  destruct Hparse as [[e ->] | ->]; by run.
Qed.

(** X10: an /auth payload in which token, url or email is absent or
    falsy (an empty string, zero, false, null) is answered by the
    missing-fields message; no request is made and nothing is saved. *)
Theorem auth_missing_fields p h rest s data tok u em :
  command_rest p = Some rest ->
  startsWith rest (lit "/auth") = true ->
  JSON_parse (trim (replace_first rest (lit "/auth") [])) = inr data ->
  get_property data (lit "token") = inr tok ->
  get_property data (lit "url") = inr u ->
  get_property data (lit "email") = inr em ->
  truthy tok && truthy u && truthy em = false ->
  handler p h s = (inr tt, log (reloaded s) (Markdown msg_missing_fields)).
Proof.
  intros Hc Hauth Hparse Htok Hu Hem Hfalsy.
  rewrite (handler_command _ _ _ _ Hc), dispatch_auth by done.
  by apply (auth_command_missing _ _ data tok u em).
Qed.

(** X11: an /auth payload with three truthy fields, while a credential is
    in force.  If a field cannot be converted to a string (an object with a
    toString key of its own), the answer is the invalid-JSON message and no
    request is made.  Otherwise one request is made, the probe, and the
    candidate is saved exactly when the probe gave a JSON body; a probe
    that is rejected, is not ok or carries no JSON is answered by the
    failure message with the reason and leaves both credentials as they
    were. *)
Theorem auth_run p h rest s a data tok u em :
  stored_credential s = Some a ->
  command_rest p = Some rest ->
  startsWith rest (lit "/auth") = true ->
  JSON_parse (trim (replace_first rest (lit "/auth") [])) = inr data ->
  get_property data (lit "token") = inr tok ->
  get_property data (lit "url") = inr u ->
  get_property data (lit "email") = inr em ->
  truthy tok && truthy u && truthy em = true ->
  let probe := build_request a (lit "/space") no_options in
  let o := fetch (fetch_count (trace s)) probe in
  handler p h s
  = (inr tt,
     match make_auth tok u em with
     | inl _ => log (reloaded s) (Markdown msg_invalid_json)
     | inr auth =>
         match client_result o with
         | inl e =>
             {| confluenceAuth := Some a;
                kbAgentAuth := kbAgentAuth s;
                trace := trace s ++ Fetch probe :: after_fetch o
                         ++ [Markdown (msg_auth_failed (message e))] |}
         | inr _ =>
             {| confluenceAuth := Some auth;
                kbAgentAuth := Some auth;
                trace := trace s ++ Fetch probe :: after_fetch o
                         ++ [GlobalStateUpdate auth;
                             Markdown msg_authenticated] |}
         end
     end)
  /\ (forall token_text url_text email_text,
        String_ tok = inr token_text ->
        String_ u = inr url_text ->
        String_ em = inr email_text ->
        make_auth tok u em
        = inr {| token := token_text;
                 url := strip_trailing_slash url_text;
                 email := email_text |})
  /\ (forall l v,
        tok = Some (JObject l) \/ u = Some (JObject l)
        \/ em = Some (JObject l) ->
        object_get l (lit "toString") = Some v ->
        exists e, make_auth tok u em = inl e).
Proof.
  intros Hs Hc Hauth Hparse Htok Hu Hem Htruthy probe o. split_and!.
  - rewrite (handler_command _ _ _ _ Hc), dispatch_auth by done.
    rewrite (auth_command_candidate _ _ _ _ _ _ Hparse Htok Hu Hem Htruthy).
    destruct (make_auth tok u em) as [e0|auth]; [done|].
    pose proof (request_outcome (lit "/space") no_options (reloaded s) a Hs)
      as Hreq.
    cbv zeta in Hreq. change (trace (reloaded s)) with (trace s) in Hreq.
    change (kbAgentAuth (reloaded s)) with (kbAgentAuth s) in Hreq.
    fold probe in Hreq. fold o in Hreq.
    destruct (client_result o) as [e|ack].
    + rewrite (probe_and_save_failure _ _ _ _ Hreq). unfold log.
      cbn [confluenceAuth kbAgentAuth trace]. by rewrite <- app_assoc.
    + rewrite (probe_and_save_success _ _ _ _ Hreq).
      cbn [confluenceAuth kbAgentAuth trace]. by rewrite <- app_assoc.
  - apply make_auth_texts.
  - intros l v Hobj Hkey.
    assert (String_ (Some (JObject l)) = inl (Error msg_not_primitive))
      as Hthrow by (simpl; by rewrite Hkey).
    unfold make_auth. destruct Hobj as [-> | [-> | ->]].
    + destruct (String_ u); [by eauto|]. rewrite Hthrow. by eauto.
    + rewrite Hthrow. by eauto.
    + destruct (String_ u); [by eauto|]. destruct (String_ tok); [by eauto|].
      rewrite Hthrow. by eauto.
Qed.

(** *** The conversational fallback *)

Lemma handler_fallback p h s :
  command_rest p = None ->
  handler p h s = fallback (default [] p) h (reloaded s).
Proof.
  unfold command_rest, handler. intros Hc.
  unfold mbind, M_bind. rewrite reload_auth_run.
  by destruct (startsWith _ prefix).
Qed.

Lemma stream_all_run (parts : list (list N)) s :
  stream_all parts s
  = (inr tt, {| confluenceAuth := confluenceAuth s;
                kbAgentAuth := kbAgentAuth s;
                trace := trace s ++ (Markdown <$> parts) |}).
Proof.
  revert s. induction parts as [|part parts IH]; intros s; simpl.
  - rewrite app_nil_r. by destruct s.
  - run. rewrite IH. unfold log. cbn [confluenceAuth kbAgentAuth trace].
    by rewrite <- app_assoc.
Qed.

(** X12: a prompt that is no command is handed to the chat model with the
    instructions first, then the earlier turns, then the prompt as it was
    typed, not as normalized; the fragments of the reply are streamed in
    their order, and no request is made; without a model the answer is the
    no-model notice. *)
Theorem fallback_streams_reply p h s :
  command_rest p = None ->
  let messages :=
    User INSTRUCTIONS :: history_messages h ++ [User (default [] p)] in
  match selectChatModels with
  | None =>
      handler p h s = (inr tt, log (reloaded s) (Markdown msg_no_model))
  | Some sendRequest =>
      forall parts,
        sendRequest messages = inr parts ->
        handler p h s
        = (inr tt,
           {| confluenceAuth := stored_credential s;
              kbAgentAuth := kbAgentAuth s;
              trace := trace s ++ SendRequest messages
                       :: (Markdown <$> parts) |})
  end.
Proof.
  intros Hc messages. rewrite (handler_fallback _ _ _ Hc). unfold fallback.
  destruct selectChatModels as [send|]; [|done].
  intros parts Hsend. run. fold messages. rewrite Hsend. run.
  rewrite stream_all_run. unfold log, reloaded.
  cbn [confluenceAuth kbAgentAuth trace]. by rewrite <- app_assoc.
Qed.

(** X13: an error of the chat model is not caught: the handler ends with
    that error, having streamed nothing. *)
Theorem fallback_error_is_not_caught p h s sendRequest e :
  command_rest p = None ->
  selectChatModels = Some sendRequest ->
  let messages :=
    User INSTRUCTIONS :: history_messages h ++ [User (default [] p)] in
  sendRequest messages = inl e ->
  handler p h s = (inl e, log (reloaded s) (SendRequest messages)).
Proof.
  intros Hc Hmodel messages Hsend. rewrite (handler_fallback _ _ _ Hc).
  unfold fallback. rewrite Hmodel. run. fold messages. by rewrite Hsend.
Qed.

(** X14: a command ignores the earlier turns and depends on the prompt
    through its normal form alone: padding it with white space or wrapping
    it into a markdown link changes nothing. *)
Theorem command_depends_on_normal_form p p' h h' rest s :
  command_rest p = Some rest ->
  normalizePrompt (Some (default [] p'))
    = normalizePrompt (Some (default [] p)) ->
  handler p' h' s = handler p h s.
Proof.
  intros Hc Hn.
  assert (command_rest p' = Some rest) as Hc'
    by (unfold command_rest in *; by rewrite Hn).
  by rewrite (handler_command _ _ _ _ Hc), (handler_command _ _ _ _ Hc').
Qed.

End Branches.

Section Conversation.

Lemma history_messages_app (h1 h2 : list Turn) :
  history_messages (h1 ++ h2) = history_messages h1 ++ history_messages h2.
Proof.
  induction h1 as [|[prompt|response] h1 IH]; simpl; [done | by rewrite IH|].
  destruct (nonempty _); simpl; by rewrite IH.
Qed.

(** X15: of the earlier turns, every request becomes one user message, in
    order; a response becomes one assistant message, the text of its
    markdown parts joined by newlines, the other parts being dropped; a
    response whose text is empty gives no message, so that no empty
    assistant message is ever sent. *)
Theorem history_messages_keep_requests (h : list Turn) :
  omap (fun m => match m with User c => Some c | Assistant _ => None end)
    (history_messages h)
  = omap (fun t => match t with
                   | ChatRequestTurn c => Some c
                   | ChatResponseTurn _ => None
                   end) h
  /\ omap (fun m => match m with Assistant c => Some c | User _ => None end)
       (history_messages h)
     = omap (fun t => match t with
                      | ChatRequestTurn _ => None
                      | ChatResponseTurn response =>
                          let text := join nl (markdown_values response) in
                          if nonempty text then Some text else None
                      end) h
  /\ (forall x y,
        history_messages
          [ChatResponseTurn [ChatResponseMarkdownPart x; OtherPart;
                             ChatResponseMarkdownPart y]]
        = [Assistant (x ++ nl ++ y)])
  /\ history_messages [ChatResponseTurn [OtherPart]] = []
  /\ Forall (fun m => match m with
                      | User _ => True
                      | Assistant c => c <> []
                      end) (history_messages h)
  /\ forall h', history_messages (h ++ h')
                = history_messages h ++ history_messages h'.
Proof.
  split_and!; [| | | done | |apply history_messages_app].
  - induction h as [|[prompt|response] h IH]; cbn; [done | by f_equal|].
    by destruct (nonempty _).
  - induction h as [|[prompt|response] h IH]; cbn; [done | done|].
    destruct (nonempty _); cbn; by rewrite ?IH.
  - intros x y. cbn. by destruct x.
  - induction h as [|[prompt|response] h IH]; simpl;
      [constructor | by constructor|].
    destruct (join nl (markdown_values response)) eqn:E; simpl; [done|].
    by constructor.
Qed.

(** X16: what follows the prefix in a command is never empty and is
    trimmed; the bare mention, with nothing but white space after it, is
    therefore no command. *)
Theorem command_rest_is_not_empty (p : option (list N)) (rest : list N) :
  command_rest p = Some rest -> rest <> [] /\ trim rest = rest.
Proof.
  unfold command_rest.
  set (prompt := normalizePrompt (Some (default [] p))).
  destruct (startsWith prompt prefix) eqn:Hpre; [|done]. intros Hrest.
  apply (inj Some) in Hrest. subst rest. split; [|apply trim_idem].
  apply startsWith_app in Hpre as [r Hr]. rewrite Hr.
  unfold slice_from. rewrite drop_app_length. intros Hnil.
  apply trim_nil_all_ws in Hnil.
  assert (exists front c, prompt = front ++ [c] /\ is_ws c = true)
    as (front & c & Hlast & Hc).
  { rewrite Hr. destruct (last r) as [c|] eqn:El.
    - apply last_Some in El as [front ->]. exists (prefix ++ front), c.
      split; [by rewrite app_assoc|].
      rewrite Forall_forall in Hnil. apply Hnil. set_solver.
    - apply last_None in El as ->. exists (lit "@kb_agent"), 0x20.
      split; reflexivity. }
  pose proof (normalizePrompt_trimmed (Some (default [] p))) as Htrim.
  fold prompt in Htrim. rewrite Hlast in Htrim.
  apply trim_last_not_ws in Htrim. congruence.
Qed.

End Conversation.



(** ** What no run does *)

Section Invariants.

Context `{host : Host}.

Implicit Types (s : State) (a : ConfluenceAuth) (rest : list N)
  (p : option (list N)) (h : list Turn).

Ltac run :=
  repeat progress
    (unfold mbind, M_bind, mret, M_ret, mthrow, M_throw, try_catch,
       get_state, markdown, emit, settle; cbn beta iota).

Lemma frame_dispatch_other rest :
  startsWith rest (lit "/auth") = false -> frame 2 0 (dispatch rest).
Proof.
  intros Hauth. unfold dispatch. rewrite Hauth.
  apply (frame_bind 0 0 2 0); [apply frame_get_state|]. intros s0.
  destruct (confluenceAuth s0).
  - destruct (startsWith rest (lit "/page")).
    { eapply frame_weaken; [apply frame_page_command | lia | lia]. }
    destruct (startsWith rest (lit "/update")).
    { eapply frame_weaken; [apply frame_update_command | lia | lia]. }
    eapply frame_weaken; [apply frame_markdown | lia | lia].
  - eapply frame_weaken; [apply frame_markdown | lia | lia].
Qed.

Lemma handler_frame p h s :
  exists tail,
    trace (handler p h s).2 = trace s ++ tail
    /\ (length (requests tail) <= 2)%nat
    /\ (length (persisted tail) <= 1)%nat
    /\ creds_after tail (reloaded s) (handler p h s).2.
Proof.
  destruct (command_rest p) as [rest|] eqn:Hc.
  - rewrite (handler_command _ _ _ _ Hc).
    apply (frame_dispatch rest (reloaded s)).
  - rewrite (handler_fallback _ _ _ Hc).
    destruct (frame_fallback (default [] p) h (reloaded s))
      as (tail & Ht & Hr & Hp & Hcreds).
    exists tail. split_and!; [done | lia | lia | done].
Qed.

Lemma handler_in_sync p h s : in_sync s -> in_sync (handler p h s).2.
Proof.
  intros Hs. destruct (handler_frame p h s) as (tail & _ & _ & _ & Hc).
  unfold creds_after in Hc. unfold in_sync in *.
  destruct (last (persisted tail)) as [auth|]; destruct Hc as [-> ->];
    [done|].
  unfold reloaded, stored_credential. simpl. rewrite Hs.
  by destruct (kbAgentAuth s).
Qed.

(** X17: whatever the prompt and whatever the host answers, a run only adds
    events to the trace, makes at most two requests and saves a credential
    at most once; the credentials after it are those in force before it,
    or both the credential it saved. *)
Theorem run_is_bounded p h s :
  let s' := (handler p h s).2 in
  (exists tail,
     trace s' = trace s ++ tail /\ creds_after tail (reloaded s) s')
  /\ (length (requests (trace s')) <= length (requests (trace s)) + 2)%nat
  /\ (length (persisted (trace s')) <= length (persisted (trace s)) + 1)%nat.
Proof.
  intros s'. destruct (handler_frame p h s) as (tail & Ht & Hr & Hp & Hc).
  fold s' in Ht, Hc. split_and!.
  - by exists tail.
  - rewrite Ht, requests_app, length_app. lia.
  - rewrite Ht, persisted_app, length_app. lia.
Qed.

(** X18: after activation the module variable and the saved credential
    agree, and they still agree after any number of turns, whatever the
    prompts and the answers of the host. *)
Theorem conversation_keeps_credentials_in_sync
    (l : list (option (list N) * list Turn)) s :
  in_sync (turns l (activate s).2).
Proof.
  assert (in_sync (activate s).2) as Hs by done.
  revert Hs. generalize (activate s).2. clear s.
  induction l as [|[p h] l IH]; intros s Hs; simpl; [done|].
  by apply IH, handler_in_sync.
Qed.

(** X19: only /auth saves: a conversational prompt or any other command
    writes nothing to the saved state and leaves the credential in force
    as it was. *)
Theorem only_auth_saves p h s :
  command_rest p = None
  \/ (exists rest, command_rest p = Some rest
                   /\ startsWith rest (lit "/auth") = false) ->
  persisted (trace (handler p h s).2) = persisted (trace s)
  /\ kbAgentAuth (handler p h s).2 = kbAgentAuth s
  /\ confluenceAuth (handler p h s).2 = stored_credential s.
Proof.
  intros Hp.
  assert (exists tail,
            trace (handler p h s).2 = trace s ++ tail
            /\ (length (persisted tail) <= 0)%nat
            /\ creds_after tail (reloaded s) (handler p h s).2)
    as (tail & Ht & Hlen & Hc).
  { destruct Hp as [Hc | (rest & Hc & Hauth)].
    - rewrite (handler_fallback _ _ _ Hc).
      destruct (frame_fallback (default [] p) h (reloaded s))
        as (tail & Ht & _ & Hp & Hcreds). eauto.
    - rewrite (handler_command _ _ _ _ Hc).
      destruct (frame_dispatch_other rest Hauth (reloaded s))
        as (tail & Ht & _ & Hp & Hcreds). eauto. }
  assert (persisted tail = []) as Hnil
    by (destruct (persisted tail); [done | simpl in Hlen; lia]).
  unfold creds_after in Hc. rewrite Hnil in Hc. simpl in Hc.
  destruct Hc as [Hca Hk]. rewrite Ht, persisted_app, Hnil, app_nil_r.
  done.
Qed.

Lemma client_result_inr (o : FetchOutcome) (page : ConfluencePageContent) :
  client_result o = inr page -> after_fetch o = [ReadJson].
Proof.
  destruct o as [e|r]; simpl; [done|]. by destruct (ok r).
Qed.

Lemma persisted_after_fetch (o : FetchOutcome) :
  persisted (after_fetch o) = [].
Proof. destruct o as [e|r]; simpl; [done|]. by destruct (ok r). Qed.

Lemma probe_and_save_tail (auth : ConfluenceAuth) s :
  exists s' tail,
    probe_and_save auth s = (inr tt, s')
    /\ trace s' = trace s ++ tail
    /\ (persisted tail = []
        \/ exists a,
             confluenceAuth s = Some a
             /\ tail = [Fetch (build_request a (lit "/space") no_options);
                        ReadJson; GlobalStateUpdate auth;
                        Markdown msg_authenticated]).
Proof.
  destruct (confluenceAuth s) as [a|] eqn:Ha.
  - pose proof (request_outcome (lit "/space") no_options s a Ha) as Hreq.
    cbv zeta in Hreq.
    destruct (client_result _) as [e|ack] eqn:Hres.
    + rewrite (probe_and_save_failure _ _ _ _ Hreq). eexists _, _.
      split; [done|]. unfold log. cbn [trace]. rewrite <- app_assoc.
      split; [done|]. left. simpl. rewrite persisted_app. simpl.
      by rewrite persisted_after_fetch.
    + rewrite (probe_and_save_success _ _ _ _ Hreq). eexists _, _.
      split; [done|]. cbn [trace]. rewrite <- app_assoc.
      split; [done|]. right. exists a. split; [done|].
      by rewrite (client_result_inr _ _ Hres).
  - rewrite (probe_and_save_unauthenticated _ _ Ha). eexists _, _.
    split; [done|]. split; [done|]. by left.
Qed.

Lemma auth_command_tail rest s :
  exists tail,
    trace (auth_command rest s).2 = trace s ++ tail
    /\ (persisted tail = []
        \/ exists a auth,
             confluenceAuth s = Some a
             /\ tail = [Fetch (build_request a (lit "/space") no_options);
                        ReadJson; GlobalStateUpdate auth;
                        Markdown msg_authenticated]).
Proof.
  unfold auth_command. run.
  destruct (JSON_parse _) as [e|data]; run;
    [exists [Markdown msg_invalid_json]; by eauto|].
  destruct (get_property data (lit "token")) as [e|tok]; run;
    [exists [Markdown msg_invalid_json]; by eauto|].
  destruct (get_property data (lit "url")) as [e|u]; run;
    [exists [Markdown msg_invalid_json]; by eauto|].
  destruct (get_property data (lit "email")) as [e|em]; run;
    [exists [Markdown msg_invalid_json]; by eauto|].
  destruct (negb (truthy tok) || negb (truthy u) || negb (truthy em));
    [exists [Markdown msg_missing_fields]; by eauto|].
  destruct (make_auth tok u em) as [e|auth]; run;
    [exists [Markdown msg_invalid_json]; by eauto|].
  destruct (probe_and_save_tail auth s) as (s' & tail & -> & Ht & Htail).
  exists tail. split; [done|]. destruct Htail as [? | (a & ? & ?)]; eauto.
Qed.

(** X20: a credential is saved only by the sequence probe request, read
    of its JSON body, save, success message, the probe being made with the
    credential in force before the run: whenever a run saves anything, its
    events are exactly these four. *)
Theorem save_follows_accepted_probe p h s :
  exists tail,
    trace (handler p h s).2 = trace s ++ tail
    /\ (persisted tail = []
        \/ exists a auth,
             stored_credential s = Some a
             /\ tail = [Fetch (build_request a (lit "/space") no_options);
                        ReadJson; GlobalStateUpdate auth;
                        Markdown msg_authenticated]).
Proof.
  destruct (command_rest p) as [rest|] eqn:Hc.
  - rewrite (handler_command _ _ _ _ Hc).
    destruct (startsWith rest (lit "/auth")) eqn:Hauth.
    + rewrite dispatch_auth by done. apply (auth_command_tail rest (reloaded s)).
    + destruct (frame_dispatch_other rest Hauth (reloaded s))
        as (tail & Ht & _ & Hp & _).
      exists tail. split; [done|]. left.
      destruct (persisted tail); [done | simpl in Hp; lia].
  - rewrite (handler_fallback _ _ _ Hc).
    destruct (frame_fallback (default [] p) h (reloaded s))
      as (tail & Ht & _ & Hp & _).
    exists tail. split; [done|]. left.
    destruct (persisted tail); [done | simpl in Hp; lia].
Qed.

End Invariants.

(** ** The requests of a run *)

Section Requests.

Context `{host : Host}.

Implicit Types (s : State) (a : ConfluenceAuth) (rest : list N)
  (p : option (list N)) (h : list Turn) (P : Request -> Prop).

Lemma sends_quiet P {A} (m : M A) : frame 0 0 m -> sends P m.
Proof.
  intros Hm s. destruct (Hm s) as (tail & Ht & Hr & _).
  exists tail. split; [done|].
  destruct (requests tail); [constructor | simpl in Hr; lia].
Qed.

Lemma sends_bind P {A B} (m : M A) (f : A -> M B) :
  sends P m -> (forall x, sends P (f x)) -> sends P (m ≫= f).
Proof.
  intros Hm Hf s. unfold mbind, M_bind.
  destruct (Hm s) as (t1 & Ht1 & Hr1).
  destruct (m s) as [[e|x] s1]; simpl in *; [by eauto|].
  destruct (Hf x s1) as (t2 & Ht2 & Hr2).
  exists (t1 ++ t2). rewrite Ht2, Ht1, <- app_assoc. split; [done|].
  rewrite requests_app. by apply Forall_app.
Qed.

Lemma sends_try_catch P {A} (body : M A) (handle : exn -> M A) :
  sends P body -> (forall e, sends P (handle e)) ->
  sends P (try_catch body handle).
Proof.
  intros Hm Hf s. unfold try_catch.
  destruct (Hm s) as (t1 & Ht1 & Hr1).
  destruct (body s) as [[e|x] s1]; simpl in *; [|by eauto].
  destruct (Hf e s1) as (t2 & Ht2 & Hr2).
  exists (t1 ++ t2). rewrite Ht2, Ht1, <- app_assoc. split; [done|].
  rewrite requests_app. by apply Forall_app.
Qed.

Lemma sends_client endpoint (options : RequestInit) :
  init_headers options = None ->
  (init_method options = None /\ init_body options = None)
  \/ (init_method options = Some (lit "PUT")
      /\ exists payload, init_body options = Some (BodyObject payload)) ->
  sends handler_request (makeConfluenceRequest endpoint options).
Proof.
  intros Hh Hshape s. destruct (confluenceAuth s) as [a|] eqn:Ha.
  - rewrite (request_outcome _ _ _ _ Ha). cbv zeta. eexists.
    split; [done|]. unfold requests. simpl.
    assert (handler_request (build_request a endpoint options)) as Hreq.
    { exists a, endpoint. unfold build_request, spread_over_headers,
        default_headers. rewrite Hh. simpl. split_and!; [done..|].
      destruct Hshape as [[-> ->] | [-> [payload ->]]]; [by left|].
      right. eauto. }
    destruct (fetch _ _) as [e|r]; simpl; [by repeat constructor|].
    destruct (ok r); by repeat constructor.
  - rewrite (request_unauthenticated _ _ _ Ha). exists []. simpl.
    by rewrite app_nil_r.
Qed.

Lemma sends_saveAuth P (auth : ConfluenceAuth) : sends P (saveAuth auth).
Proof. intros s. exists [GlobalStateUpdate auth]. by split. Qed.

Lemma sends_dispatch rest : sends handler_request (dispatch rest).
Proof.
  assert (forall m, sends handler_request (markdown m)) as Hmd
    by (intros m; apply sends_quiet, frame_markdown).
  assert (forall A (r : exn + A), sends handler_request (settle r)) as Hset
    by (intros A r; apply sends_quiet, frame_settle).
  unfold dispatch. destruct (startsWith rest (lit "/auth")).
  { unfold auth_command. apply sends_try_catch; [|done].
    apply sends_bind; [done|]. intros data.
    apply sends_bind; [done|]. intros tok.
    apply sends_bind; [done|]. intros u.
    apply sends_bind; [done|]. intros em.
    destruct (_ || _); [done|].
    apply sends_bind; [done|]. intros auth.
    unfold probe_and_save. apply sends_try_catch; [|done].
    apply sends_bind; [apply sends_client; by eauto|]. intros _.
    apply sends_bind; [apply sends_saveAuth | done]. }
  apply sends_bind; [apply sends_quiet, frame_get_state|]. intros s0.
  destruct (confluenceAuth s0); [|done].
  destruct (startsWith rest (lit "/page")).
  { unfold page_command. destruct (List.filter _ _) as [|? [|pageId ?]];
      [done | done |].
    unfold show_page. apply sends_try_catch; [|done].
    apply sends_bind; [apply sends_client; by eauto|]. intros page.
    apply sends_bind; [apply sends_quiet, frame_current_url | done]. }
  destruct (startsWith rest (lit "/update")); [|done].
  unfold update_command. destruct (indexOf rest _) as [i|]; [|done].
  destruct (indexOf _ _) as [j|]; [|done].
  unfold append_to_page. apply sends_try_catch; [|done].
  apply sends_bind; [apply sends_client; by eauto|]. intros page.
  apply sends_bind; [apply sends_client; [done | right; by eauto]|].
  intros _.
  apply sends_bind; [apply sends_quiet, frame_current_url | done].
Qed.

(** X21: every request of every run goes to an address under the API root
    of a credential and carries the Authorization, Content-Type and Accept
    headers of that credential; it has neither method nor body, or it is a
    PUT of a JSON payload. *)
Theorem run_requests_carry_default_headers p h s :
  exists tail,
    trace (handler p h s).2 = trace s ++ tail
    /\ Forall handler_request (requests tail).
Proof.
  destruct (command_rest p) as [rest|] eqn:Hc.
  - rewrite (handler_command _ _ _ _ Hc).
    apply (sends_dispatch rest (reloaded s)).
  - rewrite (handler_fallback _ _ _ Hc).
    apply (sends_quiet _ _ (frame_fallback (default [] p) h) (reloaded s)).
Qed.

(** X22: the credential a run has saved is the one the next command
    works with, in the same process and in a new one: a following /page
    sends its request to the address and with the headers of the saved
    credential. *)
Theorem saved_credential_serves_next_command p h s auth p2 h2 rest2 cmd
    pageId more :
  persisted (trace (handler p h s).2) = persisted (trace s) ++ [auth] ->
  command_rest p2 = Some rest2 ->
  startsWith rest2 (lit "/page") = true ->
  List.filter nonempty (split_on 0x20 rest2) = cmd :: pageId :: more ->
  let s1 := (handler p h s).2 in
  let get := build_request auth (lit "/content/" ++ pageId ++ expand_query)
               no_options in
  requests (trace (handler p2 h2 s1).2) = requests (trace s1) ++ [get]
  /\ requests (trace (handler p2 h2 (restarted s1)).2) = [get].
Proof.
  intros Hsaved Hc Hpage Hparts s1 get.
  destruct (handler_frame p h s) as (tail & Ht & _ & _ & Hcreds).
  fold s1 in Ht, Hcreds.
  assert (persisted tail = [auth]) as Hp.
  { fold s1 in Hsaved. rewrite Ht, persisted_app in Hsaved.
    by apply app_inv_head in Hsaved. }
  unfold creds_after in Hcreds. rewrite Hp in Hcreds. simpl in Hcreds.
  destruct Hcreds as [Hca Hk].
  assert (forall s2, confluenceAuth (reloaded s2) = Some auth ->
            requests (trace (handler p2 h2 s2).2)
            = requests (trace s2) ++ [get]) as Hnext.
  { intros s2 Hs2. rewrite (handler_command _ _ _ _ Hc).
    rewrite (dispatch_page _ _ auth) by auto using startsWith_page.
    destruct (page_command_requests rest2 (reloaded s2) cmd pageId more auth
                Hparts Hs2) as (s' & -> & Hreq).
    exact Hreq. }
  split.
  - apply Hnext. unfold reloaded, stored_credential. simpl. by rewrite Hca.
  - rewrite Hnext; [done|]. unfold reloaded, stored_credential, restarted.
    simpl. exact Hk.
Qed.

End Requests.

(** ** Remote failures *)

Section RemoteFailures.

Context `{host : Host}.

Implicit Types (s : State) (a : ConfluenceAuth) (rest endpoint : list N)
  (p : option (list N)) (h : list Turn) (r : Response).

Ltac run :=
  repeat progress
    (unfold mbind, M_bind, mret, M_ret, mthrow, M_throw, try_catch,
       get_state, markdown, emit, settle; cbn beta iota).

Lemma includes_app_r (x y z : list N) :
  includes y z = true -> includes (x ++ y) z = true.
Proof.
  intros H. induction x as [|c x IH]; simpl; [done|].
  rewrite IH. apply orb_true_r.
Qed.

Lemma includes_suffix (x y : list N) : includes (x ++ y) y = true.
Proof.
  rewrite <- (app_nil_r y) at 1. apply includes_middle.
Qed.

Lemma logged_events s a (events : list Event) :
  stored_credential s = Some a ->
  foldl log (reloaded s) events
  = {| confluenceAuth := Some a;
       kbAgentAuth := kbAgentAuth s;
       trace := trace s ++ events |}.
Proof.
  intros Hs. unfold reloaded. rewrite Hs.
  generalize (trace s). induction events as [|e events IH]; intros t; simpl.
  - by rewrite app_nil_r.
  - unfold log at 2. simpl. rewrite IH. by rewrite <- app_assoc.
Qed.

Lemma failure_text_includes (label : list N) r :
  let text := cross_mark ++ label ++ http_error r in
  includes text (N_decimal (status r)) = true
  /\ includes text (statusText r) = true.
Proof.
  intros text. unfold text, http_error. split.
  - apply includes_app_r, includes_app_r, includes_app_r.
    exact (includes_middle [] (N_decimal (status r))
             (lit ": " ++ statusText r)).
  - rewrite !app_assoc. apply includes_suffix.
Qed.

(** C8: a response that is not ok makes the client throw the error
    "HTTP <status>: <statusText>" without reading the body, and a response
    that is ok makes it read and return the JSON body.  In /page, in the
    read and in the write of /update, and in the probe of /auth, such a
    failure ends the run normally with one failure message, the last thing
    streamed, which holds the status and the status text; no command ends
    in an unhandled error. *)
Theorem non_ok_response_is_reported r :
  ok r = false ->
  let reason :=
    lit "HTTP " ++ N_decimal (status r) ++ lit ": " ++ statusText r in
  (forall a s endpoint options,
     confluenceAuth s = Some a ->
     fetch (fetch_count (trace s)) (build_request a endpoint options)
       = Resolved r ->
     makeConfluenceRequest endpoint options s
     = (inl (Error reason),
        log s (Fetch (build_request a endpoint options))))
  /\ (forall p h rest s a cmd pageId more,
        stored_credential s = Some a ->
        command_rest p = Some rest ->
        startsWith rest (lit "/page") = true ->
        List.filter nonempty (split_on 0x20 rest) = cmd :: pageId :: more ->
        let get := build_request a
                     (lit "/content/" ++ pageId ++ expand_query) no_options in
        fetch (fetch_count (trace s)) get = Resolved r ->
        let text := cross_mark ++ lit " Failed to fetch page: " ++ reason in
        handler p h s
        = (inr tt,
           {| confluenceAuth := Some a; kbAgentAuth := kbAgentAuth s;
              trace := trace s ++ [Fetch get; Markdown text] |})
        /\ includes text (N_decimal (status r)) = true
        /\ includes text (statusText r) = true)
  /\ (forall p h rest s a pageId message,
        stored_credential s = Some a ->
        command_rest p = Some rest ->
        startsWith rest (lit "/update") = true ->
        update_args rest = Some (pageId, message) ->
        let get := build_request a
                     (lit "/content/" ++ pageId ++ expand_query) no_options in
        fetch (fetch_count (trace s)) get = Resolved r ->
        let text := cross_mark ++ lit " Failed to update page: " ++ reason in
        handler p h s
        = (inr tt,
           {| confluenceAuth := Some a; kbAgentAuth := kbAgentAuth s;
              trace := trace s ++ [Fetch get; Markdown text] |})
        /\ includes text (N_decimal (status r)) = true
        /\ includes text (statusText r) = true)
  /\ (forall p h rest s a pageId message r1 page,
        stored_credential s = Some a ->
        command_rest p = Some rest ->
        startsWith rest (lit "/update") = true ->
        update_args rest = Some (pageId, message) ->
        let get := build_request a
                     (lit "/content/" ++ pageId ++ expand_query) no_options in
        let put := build_request a (lit "/content/" ++ pageId)
                     (put_options (update_payload pageId message page)) in
        fetch (fetch_count (trace s)) get = Resolved r1 ->
        ok r1 = true ->
        json_result r1 = inr page ->
        fetch (S (fetch_count (trace s))) put = Resolved r ->
        let text := cross_mark ++ lit " Failed to update page: " ++ reason in
        handler p h s
        = (inr tt,
           {| confluenceAuth := Some a; kbAgentAuth := kbAgentAuth s;
              trace := trace s
                       ++ [Fetch get; ReadJson; Fetch put; Markdown text] |})
        /\ includes text (N_decimal (status r)) = true
        /\ includes text (statusText r) = true)
  /\ (forall p h rest s a data tok u em auth,
        stored_credential s = Some a ->
        command_rest p = Some rest ->
        startsWith rest (lit "/auth") = true ->
        JSON_parse (trim (replace_first rest (lit "/auth") [])) = inr data ->
        get_property data (lit "token") = inr tok ->
        get_property data (lit "url") = inr u ->
        get_property data (lit "email") = inr em ->
        truthy tok && truthy u && truthy em = true ->
        make_auth tok u em = inr auth ->
        let probe := build_request a (lit "/space") no_options in
        fetch (fetch_count (trace s)) probe = Resolved r ->
        let text := cross_mark ++ lit " Auth failed: " ++ reason in
        handler p h s
        = (inr tt,
           {| confluenceAuth := Some a; kbAgentAuth := kbAgentAuth s;
              trace := trace s ++ [Fetch probe; Markdown text] |})
        /\ includes text (N_decimal (status r)) = true
        /\ includes text (statusText r) = true)
  /\ (forall r' a s endpoint options,
        ok r' = true ->
        confluenceAuth s = Some a ->
        fetch (fetch_count (trace s)) (build_request a endpoint options)
          = Resolved r' ->
        makeConfluenceRequest endpoint options s
        = (json_result r',
           log (log s (Fetch (build_request a endpoint options))) ReadJson))
  /\ (forall p h rest s,
        command_rest p = Some rest ->
        exists s', handler p h s = (inr tt, s')).
Proof.
  intros Hok reason.
  assert (forall a s endpoint options,
            confluenceAuth s = Some a ->
            fetch (fetch_count (trace s)) (build_request a endpoint options)
              = Resolved r ->
            makeConfluenceRequest endpoint options s
            = (inl (Error reason),
               log s (Fetch (build_request a endpoint options))))
    as Hclient.
  { intros a s endpoint options Ha Hf. by apply request_not_ok. }
  split_and!.
  - exact Hclient.
  - intros p h rest s a cmd pageId more Hs Hc Hpage Hparts get Hf text.
    split; [|apply (failure_text_includes (lit " Failed to fetch page: "))].
    rewrite (handler_command _ _ _ _ Hc).
    rewrite (dispatch_page _ _ a) by auto using startsWith_page.
    rewrite (page_command_failure _ _ _ _ _ _ _ Hparts
               (Hclient a (reloaded s) _ _ Hs Hf)).
    f_equal. exact (logged_events s a [Fetch get; Markdown text] Hs).
  - intros p h rest s a pageId message Hs Hc Hupd Hargs get Hf text.
    split; [|apply (failure_text_includes (lit " Failed to update page: "))].
    rewrite (handler_command _ _ _ _ Hc).
    rewrite (dispatch_update _ _ a) by done.
    rewrite (update_command_args _ _ _ _ Hargs).
    rewrite (append_to_page_failure _ _ _ _ _
               (Hclient a (reloaded s) _ _ Hs Hf)).
    f_equal. exact (logged_events s a [Fetch get; Markdown text] Hs).
  - intros p h rest s a pageId message r1 page Hs Hc Hupd Hargs get put Hf1
      Hok1 Hjson Hf text.
    split; [|apply (failure_text_includes (lit " Failed to update page: "))].
    rewrite (handler_command _ _ _ _ Hc).
    rewrite (dispatch_update _ _ a) by done.
    rewrite (update_command_args _ _ _ _ Hargs).
    unfold append_to_page. run.
    rewrite (request_ok _ _ (reloaded s) a r1 Hs Hf1 Hok1), Hjson.
    fold get. fold put.
    set (s1 := log (log (reloaded s) (Fetch get)) ReadJson).
    assert (fetch (fetch_count (trace s1)) put = Resolved r) as Hf2.
    { unfold s1. rewrite fetch_count_log_other by done.
      by rewrite fetch_count_log_fetch. }
    rewrite (Hclient a s1 _ _ Hs Hf2).
    f_equal. exact (logged_events s a [Fetch get; ReadJson; Fetch put; Markdown text] Hs).
  - intros p h rest s a data tok u em auth Hs Hc Hauth Hparse Htok Hu Hem
      Htruthy Hmake probe Hf text.
    split; [|apply (failure_text_includes (lit " Auth failed: "))].
    rewrite (handler_command _ _ _ _ Hc), dispatch_auth by done.
    rewrite (auth_command_candidate _ _ _ _ _ _ Hparse Htok Hu Hem Htruthy).
    rewrite Hmake.
    rewrite (probe_and_save_failure _ _ _ _
               (Hclient a (reloaded s) _ _ Hs Hf)).
    f_equal. exact (logged_events s a [Fetch probe; Markdown text] Hs).
  - intros r' a s endpoint options Hok' Ha Hf. by apply request_ok.
  - intros p h rest s Hc. rewrite (handler_command _ _ _ _ Hc).
    apply dispatch_returns.
Qed.

End RemoteFailures.

(** The witness of C8: /page 42 against a server that answers 403. *)
Lemma non_ok_response_is_reported_witness :
  let get := build_request old_auth
               (lit "/content/" ++ lit "42" ++ expand_query) no_options in
  let text := cross_mark ++ lit " Failed to fetch page: "
              ++ lit "HTTP " ++ lit "403" ++ lit ": " ++ lit "Forbidden" in
  handler (host := sample_host [] forbidden)
    (Some (lit "@kb_agent /page 42")) [] (session_of old_auth)
  = (inr tt,
     {| confluenceAuth := Some old_auth; kbAgentAuth := Some old_auth;
        trace := [Fetch get; Markdown text] |})
  /\ includes text (lit "403") = true
  /\ includes text (lit "Forbidden") = true.
Proof.
  exact (proj1 (proj2
           (non_ok_response_is_reported (host := sample_host [] forbidden)
              {| status := 403; statusText := lit "Forbidden";
                 json_result := inl (Error (lit "Unexpected token")) |}
              eq_refl))
           (Some (lit "@kb_agent /page 42")) [] (lit "/page 42")
           (session_of old_auth) old_auth (lit "/page") (lit "42") []
           eq_refl eq_refl eq_refl eq_refl eq_refl).
Defined.

(** ** The Authorization header *)

Section Base64.

Lemma list_ind3 (P : list N -> Prop) :
  P [] -> (forall a, P [a]) -> (forall a b, P [a; b]) ->
  (forall a b c l, P l -> P (a :: b :: c :: l)) ->
  forall l, P l.
Proof.
  intros H0 H1 H2 H3 l.
  assert (forall n l, (length l <= n)%nat -> P l) as Hn; [|by eapply Hn].
  clear l. induction n as [|n IH]; intros l Hl.
  - destruct l; [done | simpl in Hl; lia].
  - destruct l as [|a [|b [|c l]]]; [done..|].
    apply H3, IH. simpl in Hl. lia.
Qed.

Lemma base64_digit_unit (i : N) : is_base64_unit (base64_digit i) = true.
Proof.
  unfold base64_digit, is_base64_unit.
  destruct (i <? 26) eqn:E1; [apply N.ltb_lt in E1|].
  { replace ((65 <=? 65 + i) && (65 + i <=? 90)) with true; [done|].
    symmetry. apply andb_true_iff. split; apply N.leb_le; lia. }
  apply N.ltb_ge in E1.
  destruct (i <? 52) eqn:E2; [apply N.ltb_lt in E2|].
  { replace ((97 <=? 97 + (i - 26)) && (97 + (i - 26) <=? 122)) with true;
      [by rewrite orb_true_r|].
    symmetry. apply andb_true_iff. split; apply N.leb_le; lia. }
  apply N.ltb_ge in E2.
  destruct (i <? 62) eqn:E3; [apply N.ltb_lt in E3|].
  { replace ((48 <=? 48 + (i - 52)) && (48 + (i - 52) <=? 57)) with true;
      [by rewrite !orb_true_r|].
    symmetry. apply andb_true_iff. split; apply N.leb_le; lia. }
  by destruct (i =? 62).
Qed.

Lemma base64_units (l : list N) :
  Forall (fun c => is_base64_unit c = true) (base64 l).
Proof.
  induction l as [|a|a b|a b c l IH] using list_ind3; simpl;
    repeat (constructor; [apply base64_digit_unit || done|]);
    [constructor.. | done].
Qed.

Lemma base64_length (l : list N) :
  length (base64 l) = (4 * ((length l + 2) / 3))%nat.
Proof.
  induction l as [|a|a b|a b c l IH] using list_ind3; [done..|].
  cbn [base64 length]. rewrite IH.
  replace (S (S (S (length l))) + 2)%nat with (length l + 2 + 1 * 3)%nat
    by lia.
  rewrite Nat.div_add by done. lia.
Qed.

Ltac Zify.zify_post_hook ::= Z.to_euclidean_division_equations.

Lemma base64_value_digit (i : N) :
  i < 64 -> base64_value (base64_digit i) = i /\ base64_digit i <> 61.
Proof.
  intros Hi. unfold base64_value, base64_digit.
  destruct (i <? 26) eqn:E1; [apply N.ltb_lt in E1|apply N.ltb_ge in E1].
  { replace ((65 <=? 65 + i) && (65 + i <=? 90)) with true; [lia|].
    symmetry. apply andb_true_iff. split; apply N.leb_le; lia. }
  destruct (i <? 52) eqn:E2; [apply N.ltb_lt in E2|apply N.ltb_ge in E2].
  { replace ((65 <=? 97 + (i - 26)) && (97 + (i - 26) <=? 90)) with false
      by (symmetry; apply andb_false_iff; right; apply N.leb_gt; lia).
    replace ((97 <=? 97 + (i - 26)) && (97 + (i - 26) <=? 122)) with true;
      [lia|].
    symmetry. apply andb_true_iff. split; apply N.leb_le; lia. }
  destruct (i <? 62) eqn:E3; [apply N.ltb_lt in E3|apply N.ltb_ge in E3].
  { replace ((65 <=? 48 + (i - 52)) && (48 + (i - 52) <=? 90)) with false
      by (symmetry; apply andb_false_iff; left; apply N.leb_gt; lia).
    replace ((97 <=? 48 + (i - 52)) && (48 + (i - 52) <=? 122)) with false
      by (symmetry; apply andb_false_iff; left; apply N.leb_gt; lia).
    replace ((48 <=? 48 + (i - 52)) && (48 + (i - 52) <=? 57)) with true;
      [lia|].
    symmetry. apply andb_true_iff. split; apply N.leb_le; lia. }
  destruct (i =? 62) eqn:E4; [apply N.eqb_eq in E4|apply N.eqb_neq in E4].
  - subst i. by vm_compute.
  - assert (i = 63) as -> by lia. by vm_compute.
Qed.

Lemma base64_round_trip (bytes : list N) :
  Forall (fun b => b < 256) bytes -> base64_decode (base64 bytes) = bytes.
Proof.
  induction bytes as [|a|a b|a b c l IH] using list_ind3; intros Hb.
  - done.
  - inversion_clear Hb as [|? ? Ha _]. cbn [base64 base64_decode].
    rewrite N.eqb_refl.
    destruct (base64_value_digit (a / 4)) as [-> _]; [lia|].
    destruct (base64_value_digit (a mod 4 * 16)) as [-> _]; [lia|].
    f_equal. lia.
  - inversion_clear Hb as [|? ? Ha Hb']. inversion_clear Hb' as [|? ? Hb _].
    cbn [base64 base64_decode]. rewrite N.eqb_refl.
    destruct (base64_value_digit (a / 4)) as [-> _]; [lia|].
    destruct (base64_value_digit (a mod 4 * 16 + b / 16)) as [-> _]; [lia|].
    destruct (base64_value_digit (b mod 16 * 4)) as [-> Hne]; [lia|].
    apply N.eqb_neq in Hne. rewrite Hne. f_equal; [lia|]. f_equal. lia.
  - inversion_clear Hb as [|? ? Ha Hb']. inversion_clear Hb' as [|? ? Hb Hb''].
    inversion_clear Hb'' as [|? ? Hc Hl].
    cbn [base64 base64_decode].
    destruct (base64_value_digit (a / 4)) as [-> _]; [lia|].
    destruct (base64_value_digit (a mod 4 * 16 + b / 16)) as [-> _]; [lia|].
    destruct (base64_value_digit (b mod 16 * 4 + c / 64)) as [-> Hne3];
      [lia|].
    destruct (base64_value_digit (c mod 64)) as [-> Hne4]; [lia|].
    apply N.eqb_neq in Hne3, Hne4. rewrite Hne3, Hne4, IH by done.
    f_equal; [lia|]. f_equal; [lia|]. f_equal. lia.
Qed.

Lemma units_below_65536 (s : list N) :
  forallb (fun u => u <? 65536) s = true -> Forall (fun u => u < 65536) s.
Proof.
  induction s as [|u s IH]; simpl; [constructor|].
  intros [Hu Hs]%andb_true_iff. constructor; [by apply N.ltb_lt | by apply IH].
Qed.

Lemma utf8_encode_bytes (s : list N) :
  Forall (fun u => u < 65536) s -> Forall (fun b => b < 256) (utf8_encode s).
Proof.
  assert (forall n (s : list N), (length s <= n)%nat ->
            Forall (fun u => u < 65536) s ->
            Forall (fun b => b < 256) (utf8_encode s)) as Hn;
    [|by apply (Hn (length s))].
  clear s. induction n as [|n IH]; intros s Hlen Hs.
  { destruct s; [constructor | simpl in Hlen; lia]. }
  destruct s as [|u rest]; [constructor|].
  inversion_clear Hs as [|? ? Hu Hrest]. simpl in Hlen.
  assert (Forall (fun b => b < 256) (utf8_encode rest)) as Hr
    by (apply IH; [lia | done]).
  cbn [utf8_encode].
  destruct (u <? 0x80) eqn:E1; [apply N.ltb_lt in E1|apply N.ltb_ge in E1].
  { constructor; [lia | done]. }
  destruct (u <? 0x800) eqn:E2; [apply N.ltb_lt in E2|apply N.ltb_ge in E2].
  { repeat (constructor; [lia|]). done. }
  destruct ((0xD800 <=? u) && (u <? 0xDC00)) eqn:E3.
  { apply andb_true_iff in E3 as [E3 E3']. apply N.leb_le in E3.
    apply N.ltb_lt in E3'.
    destruct rest as [|lo rest']; [repeat (constructor; [lia|]); constructor|].
    inversion_clear Hrest as [|? ? Hlo Hrest']. simpl in Hlen.
    destruct ((0xDC00 <=? lo) && (lo <? 0xE000)) eqn:E4.
    - apply andb_true_iff in E4 as [E4 E4']. apply N.leb_le in E4.
      apply N.ltb_lt in E4'.
      repeat (constructor; [lia|]). apply IH; [lia | done].
    - repeat (constructor; [lia|]). done. }
  destruct ((0xDC00 <=? u) && (u <? 0xE000)).
  { repeat (constructor; [lia|]). done. }
  repeat (constructor; [lia|]). done.
Qed.

(** X23: the Authorization header of a request without caller headers is
    "Basic " followed by a base64 text that reads back as the UTF-8 bytes
    of email:token; the text is made of base64 units, four for every three
    bytes, the last group padded. *)
Theorem authorization_is_basic_base64 (a : ConfluenceAuth) :
  Forall (fun u => u < 65536) (email a ++ lit ":" ++ token a) ->
  let bytes := utf8_encode (email a ++ lit ":" ++ token a) in
  exists text,
    default_headers a no_options !! lit "Authorization"
      = Some (lit "Basic " ++ text)
    /\ base64_decode text = bytes
    /\ length text = (4 * ((length bytes + 2) / 3))%nat
    /\ Forall (fun c => is_base64_unit c = true) text.
Proof.
  intros Hunits bytes. exists (base64 bytes). split_and!.
  - reflexivity.
  - by apply base64_round_trip, utf8_encode_bytes.
  - apply base64_length.
  - apply base64_units.
Qed.

End Base64.

(** ** Witnesses *)

Lemma update_args_are_not_empty_witness :
  lit "123" <> [] /\ (0x20 ∉ lit "123") /\ trim (lit "123") = lit "123"
  /\ lit "hello world" <> [] /\ trim (lit "hello world") = lit "hello world".
Proof.
  exact (update_args_are_not_empty (lit "/update 123 hello world")
           (lit "123") (lit "hello world") eq_refl).
Defined.

Lemma page_without_id_is_usage_error_witness :
  handler (host := sample_host [] serving_sample_page)
    (Some (lit "@kb_agent /page")) [] (session_of old_auth)
  = (inr tt, log (session_of old_auth) (Markdown msg_page_usage)).
Proof.
  apply (page_without_id_is_usage_error
           (host := sample_host [] serving_sample_page)
           (Some (lit "@kb_agent /page")) [] (lit "/page")
           (session_of old_auth) old_auth eq_refl eq_refl eq_refl).
  apply (proj1 (indexOf_None (lit "/page") 0x20)). reflexivity.
Defined.

Lemma page_run_witness :
  let get := build_request old_auth
               (lit "/content/42?expand=body.storage,version,space")
               no_options in
  handler (host := sample_host [] serving_sample_page)
    (Some (lit "@kb_agent /page 42 and more")) [] (session_of old_auth)
  = (inr tt,
     {| confluenceAuth := Some old_auth; kbAgentAuth := Some old_auth;
        trace := [Fetch get; ReadJson;
                  Markdown (page_output sample_page (lit "http://old"))] |}).
Proof.
  exact (proj1 (page_run (host := sample_host [] serving_sample_page)
                  (Some (lit "@kb_agent /page 42 and more")) []
                  (lit "/page 42 and more") (session_of old_auth) old_auth
                  (lit "/page") (lit "42") [lit "and"; lit "more"]
                  eq_refl eq_refl eq_refl eq_refl)).
Defined.

Lemma update_without_arguments_is_usage_error_witness :
  handler (host := sample_host [] serving_sample_page)
    (Some (lit "@kb_agent /update 123")) [] (session_of old_auth)
  = (inr tt, log (session_of old_auth) (Markdown msg_missing_message)).
Proof.
  exact (update_without_arguments_is_usage_error
           (host := sample_host [] serving_sample_page)
           (Some (lit "@kb_agent /update 123")) [] (lit "/update 123")
           (session_of old_auth) old_auth eq_refl eq_refl eq_refl eq_refl).
Defined.

Lemma update_run_witness :
  let get := build_request old_auth
               (lit "/content/123?expand=body.storage,version,space")
               no_options in
  let put := build_request old_auth (lit "/content/123")
               (put_options
                  (update_payload (lit "123") (lit "hello") sample_page)) in
  handler (host := sample_host [] conflicting)
    (Some (lit "@kb_agent /update 123 hello")) [] (session_of old_auth)
  = (inr tt,
     {| confluenceAuth := Some old_auth; kbAgentAuth := Some old_auth;
        trace := [Fetch get; ReadJson; Fetch put;
                  Markdown (msg_update_failed (lit "HTTP 409: Conflict"))] |}).
Proof.
  exact (update_run (host := sample_host [] conflicting)
           (Some (lit "@kb_agent /update 123 hello")) []
           (lit "/update 123 hello") (session_of old_auth) old_auth
           (lit "123") (lit "hello") eq_refl eq_refl eq_refl eq_refl).
Defined.

Lemma auth_invalid_json_witness :
  handler (host := sample_host [(lit "null", JNull)] offline)
    (Some (lit "@kb_agent /auth null")) [] fresh_session
  = (inr tt, log fresh_session (Markdown msg_invalid_json))
  /\ handler (host := sample_host [(lit "null", JNull)] offline)
       (Some (lit "@kb_agent /auth {token:t}")) [] fresh_session
     = (inr tt, log fresh_session (Markdown msg_invalid_json)).
Proof.
  split.
  - exact (auth_invalid_json (host := sample_host [(lit "null", JNull)] offline)
             (Some (lit "@kb_agent /auth null")) [] (lit "/auth null")
             fresh_session eq_refl eq_refl (or_intror eq_refl)).
  - exact (auth_invalid_json (host := sample_host [(lit "null", JNull)] offline)
             (Some (lit "@kb_agent /auth {token:t}")) []
             (lit "/auth {token:t}") fresh_session eq_refl eq_refl
             (or_introl (ex_intro _ (Error (lit "Unexpected token")) eq_refl))).
Defined.

Lemma auth_missing_fields_witness :
  handler
    (host := sample_host [(empty_token_text, empty_token_json)]
               serving_sample_page)
    (Some (lit "@kb_agent /auth " ++ empty_token_text)) []
    (session_of old_auth)
  = (inr tt, log (session_of old_auth) (Markdown msg_missing_fields)).
Proof.
  exact (auth_missing_fields
           (host := sample_host [(empty_token_text, empty_token_json)]
                      serving_sample_page)
           (Some (lit "@kb_agent /auth " ++ empty_token_text)) []
           (lit "/auth " ++ empty_token_text) (session_of old_auth)
           empty_token_json (Some (JString []))
           (Some (JString (lit "http://h/"))) (Some (JString (lit "e@x")))
           eq_refl eq_refl eq_refl eq_refl eq_refl eq_refl eq_refl).
Defined.

Lemma auth_run_witness :
  let probe := build_request old_auth (lit "/space") no_options in
  handler (host := sample_host [(auth_text, auth_json)] offline)
    (Some auth_prompt) [] (session_of old_auth)
  = (inr tt,
     {| confluenceAuth := Some old_auth; kbAgentAuth := Some old_auth;
        trace := [Fetch probe;
                  Markdown (msg_auth_failed (lit "fetch failed"))] |})
  /\ handler
       (host := sample_host [(object_url_text, object_url_json)]
                  serving_sample_page)
       (Some (lit "@kb_agent /auth " ++ object_url_text)) []
       (session_of old_auth)
     = (inr tt, log (session_of old_auth) (Markdown msg_invalid_json)).
Proof.
  split.
  - exact (proj1
             (auth_run (host := sample_host [(auth_text, auth_json)] offline)
                (Some auth_prompt) [] (lit "/auth " ++ auth_text)
                (session_of old_auth) old_auth auth_json
                (Some (JString (lit "t"))) (Some (JString (lit "http://h/")))
                (Some (JString (lit "e@x")))
                eq_refl eq_refl eq_refl eq_refl eq_refl eq_refl eq_refl
                eq_refl)).
  - exact (proj1
             (auth_run
                (host := sample_host [(object_url_text, object_url_json)]
                           serving_sample_page)
                (Some (lit "@kb_agent /auth " ++ object_url_text)) []
                (lit "/auth " ++ object_url_text)
                (session_of old_auth) old_auth object_url_json
                (Some (JString (lit "t")))
                (Some (JObject [(lit "toString", JNumber 1%Z)]))
                (Some (JString (lit "e@x")))
                eq_refl eq_refl eq_refl eq_refl eq_refl eq_refl eq_refl
                eq_refl)).
Defined.

Lemma fallback_streams_reply_witness :
  handler (host := chat_host (inr [lit "Hel"; lit "lo"]))
    (Some (lit "  [a link](http://x) ")) [ChatRequestTurn (lit "hi")]
    fresh_session
  = (inr tt,
     {| confluenceAuth := None; kbAgentAuth := None;
        trace := [SendRequest [User INSTRUCTIONS; User (lit "hi");
                               User (lit "  [a link](http://x) ")];
                  Markdown (lit "Hel"); Markdown (lit "lo")] |}).
Proof.
  exact (fallback_streams_reply (host := chat_host (inr [lit "Hel"; lit "lo"]))
           (Some (lit "  [a link](http://x) ")) [ChatRequestTurn (lit "hi")]
           fresh_session eq_refl [lit "Hel"; lit "lo"] eq_refl).
Defined.

Lemma fallback_error_is_not_caught_witness :
  handler (host := chat_host (inl (Error (lit "model is off"))))
    (Some (lit "hello")) [] fresh_session
  = (inl (Error (lit "model is off")),
     log fresh_session
       (SendRequest [User INSTRUCTIONS; User (lit "hello")])).
Proof.
  exact (fallback_error_is_not_caught
           (host := chat_host (inl (Error (lit "model is off"))))
           (Some (lit "hello")) [] fresh_session
           (fun _ => inl (Error (lit "model is off")))
           (Error (lit "model is off")) eq_refl eq_refl eq_refl).
Defined.

Lemma command_depends_on_normal_form_witness :
  handler (host := sample_host [] serving_sample_page)
    (Some (lit "  [@kb_agent /page 42](http://x)  "))
    [ChatRequestTurn (lit "hi")] (session_of old_auth)
  = handler (host := sample_host [] serving_sample_page)
      (Some (lit "@kb_agent /page 42")) [] (session_of old_auth).
Proof.
  exact (command_depends_on_normal_form
           (host := sample_host [] serving_sample_page)
           (Some (lit "@kb_agent /page 42"))
           (Some (lit "  [@kb_agent /page 42](http://x)  ")) []
           [ChatRequestTurn (lit "hi")] (lit "/page 42")
           (session_of old_auth) eq_refl eq_refl).
Defined.

Lemma command_rest_is_not_empty_witness :
  lit "/page 42" <> [] /\ trim (lit "/page 42") = lit "/page 42".
Proof.
  exact (command_rest_is_not_empty (Some (lit " @kb_agent   /page 42 "))
           (lit "/page 42") eq_refl).
Defined.

Lemma only_auth_saves_witness :
  let s' := (handler (host := sample_host [] serving_sample_page)
               (Some (lit "@kb_agent /update 123 hello")) []
               (session_of old_auth)).2 in
  persisted (trace s') = []
  /\ kbAgentAuth s' = Some old_auth
  /\ confluenceAuth s' = Some old_auth.
Proof.
  exact (only_auth_saves (host := sample_host [] serving_sample_page)
           (Some (lit "@kb_agent /update 123 hello")) []
           (session_of old_auth)
           (or_intror (ex_intro _ (lit "/update 123 hello")
                         (conj eq_refl eq_refl)))).
Defined.

Lemma saved_credential_serves_next_command_witness :
  let host := sample_host [(auth_text, auth_json)] serving_sample_page in
  let s1 := (handler (host := host) (Some auth_prompt) []
               (session_of old_auth)).2 in
  let get := build_request candidate
               (lit "/content/" ++ lit "42" ++ expand_query) no_options in
  requests (trace (handler (host := host) (Some (lit "@kb_agent /page 42")) []
                     s1).2)
  = requests (trace s1) ++ [get]
  /\ requests (trace (handler (host := host)
                       (Some (lit "@kb_agent /page 42")) []
                       (restarted s1)).2)
     = [get].
Proof.
  exact (saved_credential_serves_next_command
           (host := sample_host [(auth_text, auth_json)] serving_sample_page)
           (Some auth_prompt) [] (session_of old_auth) candidate
           (Some (lit "@kb_agent /page 42")) [] (lit "/page 42")
           (lit "/page") (lit "42") [] eq_refl eq_refl eq_refl eq_refl).
Defined.

Lemma authorization_is_basic_base64_witness :
  exists text,
    default_headers old_auth no_options !! lit "Authorization"
      = Some (lit "Basic " ++ text)
    /\ base64_decode text = lit "old@x:old-token"
    /\ length text = 20%nat
    /\ Forall (fun c => is_base64_unit c = true) text.
Proof.
  apply (authorization_is_basic_base64 old_auth).
  apply units_below_65536. vm_compute. reflexivity.
Defined.
